(** * The analysis pipeline of the SEO/GEO control tool (src/App.tsx)

    A shallow embedding of the four operations of [App]: the spreadsheet
    import [onDrop], the page analyzer [analyzeUrl], the orchestrator
    [handleAnalyze] and the export [exportToExcel], followed by the
    properties the specification states about them.

    Conventions.
    - A JavaScript string is its sequence of code units; the model covers
      the code units below 256.
    - The records the program passes around are plain JavaScript objects
      (the interface [AnalysisResult] is erased at run time and the
      scoring response is spread into the record untyped), so a record is
      a finite map from property names to JavaScript values.
    - [fetch], [ai.models.generateContent] and [JSON.parse] are not part of
      the repository: they are parameters.  What they raise is an [Error]
      object, of which the program reads the [message] only. *)

From Stdlib Require Import String Ascii List Bool Arith Lia.
From Stdlib Require Import Floats.SpecFloat.
From stdpp Require Import base option list gmap strings pretty.
Import ListNotations.

Set Warnings "-register-all".
Local Open Scope string_scope.
Local Open Scope list_scope.

(** ** Strings *)

Module Str.

Definition LF : ascii := "010"%char.
Definition newline : string := String LF EmptyString.

(** The white space and line terminators [String.prototype.trim] strips,
    among the code units below 256: TAB, LF, VT, FF, CR, SP and NBSP. *)
Definition is_white_space (c : ascii) : bool :=
  let n := nat_of_ascii c in
  ((9 <=? n)%nat && (n <=? 13)%nat) || (n =? 32)%nat || (n =? 160)%nat.

Definition is_empty (s : string) : bool :=
  match s with EmptyString => true | String _ _ => false end.

Fixpoint trimStart (s : string) : string :=
  match s with
  | EmptyString => EmptyString
  | String c rest => if is_white_space c then trimStart rest else s
  end.

Fixpoint trimEnd (s : string) : string :=
  match s with
  | EmptyString => EmptyString
  | String c rest =>
      let rest' := trimEnd rest in
      if is_white_space c && is_empty rest' then EmptyString
      else String c rest'
  end.

(** [s.trim()] *)
Definition trim (s : string) : string := trimEnd (trimStart s).

(** [s.split('\n')]: the pieces between line feeds; never empty. *)
Fixpoint split_lines (s : string) : list string :=
  match s with
  | EmptyString => [EmptyString]
  | String c rest =>
      if Ascii.eqb c LF then EmptyString :: split_lines rest
      else match split_lines rest with
           | [] => [String c EmptyString]
           | piece :: pieces => String c piece :: pieces
           end
  end.

(** [s.startsWith(p)] *)
Definition startsWith (p s : string) : bool := String.prefix p s.

(** [pieces.join(sep)] for an array of strings. *)
Definition join (sep : string) (pieces : list string) : string :=
  String.concat sep pieces.

(** [s.substring(0, n)] *)
Definition substring_to (n : nat) (s : string) : string :=
  String.substring 0 n s.

End Str.

(** ** JavaScript values *)

Inductive JsVal : Type :=
  | JUndefined
  | JNull
  | JBool (b : bool)
  | JNum (x : spec_float)
  | JStr (s : string)
  | JArr (elems : list JsVal)
  | JObj (props : gmap string JsVal).

(** A plain object: its own enumerable properties. *)
Abbreviation Obj := (gmap string JsVal).

(** ToBoolean, as [||], [?:] and [!] apply it. *)
Definition truthy (v : JsVal) : bool :=
  match v with
  | JUndefined | JNull => false
  | JBool b => b
  | JNum (S754_zero _) | JNum S754_nan => false
  | JNum _ => true
  | JStr s => negb (Str.is_empty s)
  | JArr _ | JObj _ => true
  end.

(** [a || b] *)
Definition js_or (a b : JsVal) : JsVal := if truthy a then a else b.

(** [typeof v === 'string'] *)
Definition is_string (v : JsVal) : bool :=
  match v with JStr _ => true | _ => false end.

(** [o.k] on a plain object, for a name [k] that [Object.prototype] does
    not define (every name the program reads is one): the own property, or
    [undefined]. *)
Definition get (k : string) (o : Obj) : JsVal := default JUndefined (o !! k).

(** The properties the spread [{...v}] copies (CopyDataProperties): the own
    properties of an object, the indexed elements of an array, the indexed
    characters of a string, and none of [null], [undefined], a boolean or
    a number. *)
Definition index_props {A} (f : A -> JsVal) (l : list A) : Obj :=
  list_to_map (imap (fun i x => (pretty i, f x)) l).

Definition own_props (v : JsVal) : Obj :=
  match v with
  | JObj o => o
  | JArr l => index_props (fun x => x) l
  | JStr s => index_props (fun c => JStr (String c EmptyString))
                          (list_ascii_of_string s)
  | JUndefined | JNull | JBool _ | JNum _ => ∅
  end.

(** [{ ...base's properties, ...v }]: the properties of [v] are defined
    after those of the literal and replace the ones of the same name. *)
Definition spread_onto (base : Obj) (v : JsVal) : Obj := own_props v ∪ base.

(** ** Exceptions *)

(** An [Error] object (Error, TypeError, SyntaxError, DOMException, the
    SDK's ApiError): the program reads its [message]. *)
Record Error : Type := mkError { message : string }.

(** The completion of an evaluation that may throw. *)
Inductive Completion (A : Type) : Type :=
  | Normal (a : A)
  | Throw (e : Error).
Arguments Normal {A} a.
Arguments Throw {A} e.

#[global] Instance Completion_ret : MRet Completion := fun A a => Normal a.
#[global] Instance Completion_bind : MBind Completion := fun A B f c =>
  match c with
  | Normal a => f a
  | Throw e => Throw e
  end.

(** [try { body } catch (error) { handler }] *)
Definition try_catch {A} (body : Completion A) (handler : Error -> Completion A)
  : Completion A :=
  match body with
  | Normal a => Normal a
  | Throw e => handler e
  end.

(** ** The collaborators and the platform *)

(** What [await fetch('/api/fetch-url', ...)] resolves to: the two fields of
    the response the program reads, and what [await fetchResponse.json()]
    completes with. *)
Record FetchResponse : Type := {
  ok : bool;
  statusText : string;
  json : Completion JsVal
}.

(** What [await ai.models.generateContent(...)] resolves to: its [text],
    a string or [undefined]. *)
Record GenerateContentResponse : Type := {
  text : option string
}.

(** The outside world during one analysis.  [fetch url] stands for the POST
    of [JSON.stringify({ url })] to the proxy, [generateContent contents]
    for the call with that prompt (model, mime type and response schema are
    constants of the call).  Either may reject. *)
Record Collaborators : Type := {
  fetch : string -> Completion FetchResponse;
  generateContent : string -> Completion GenerateContentResponse
}.

(** The built-ins of the JavaScript engine the program relies on:
    [JSON.parse], which returns a value or throws a SyntaxError, and the
    TypeErrors raised when [const { html } = v] meets [null] or [undefined]
    and when [html.substring] is not callable. *)
Record Engine : Type := {
  JSON_parse : string -> Completion JsVal;
  TypeError_destructure : JsVal -> Error;
  TypeError_substring : JsVal -> Error
}.

(** ** The data model (src/types.ts) *)

Module Field.
Definition url := "url".
Definition status := "status".
Definition missingToC := "missingToC".
Definition deepLinkableAnchors := "deepLinkableAnchors".
Definition naturalLanguageHeadings := "naturalLanguageHeadings".
Definition highInformationDensity := "highInformationDensity".
Definition semanticHtml := "semanticHtml".
Definition summary := "summary".
Definition error := "error".

(** The five criteria. *)
Definition criteria : list string :=
  [missingToC; deepLinkableAnchors; naturalLanguageHeadings;
   highInformationDensity; semanticHtml].

(** The six properties of the response schema. *)
Definition expected : list string := criteria ++ [summary].
End Field.

(** The three values of [status]. *)
Module Status.
Definition pending : JsVal := JStr "pending".
Definition success : JsVal := JStr "success".
Definition error : JsVal := JStr "error".
End Status.

(** ** analyzeUrl *)

Module Prompt.
Definition indent : string := "        ".
Definition line (s : string) : string := indent +:+ s +:+ Str.newline.

(** The template literal before [${html.substring(0, 30000)}]. *)
Definition head : string :=
  "Analyze the following HTML content for SEO and GEO optimization criteria for VW PKW."
    +:+ Str.newline
    +:+ line EmptyString
    +:+ line "HTML Content (truncated if too long):"
    +:+ indent.

(** The template literal after it. *)
Definition tail : string :=
  Str.newline
    +:+ line EmptyString
    +:+ line "Check the following points:"
    +:+ line "1. Missing Table of Contents (ToC): Is there a clear navigation or ToC for the page content?"
    +:+ line "2. Deep-Linkable Anchor Tags: Are headings or sections equipped with IDs that can be linked directly?"
    +:+ line "3. Natural Language & Question-Based Headings: Are headings formulated as questions or in natural language?"
    +:+ line "4. High Information Density (Keywords as Entities): Does the content treat keywords as entities with rich information?"
    +:+ line "5. Semantic HTML Structure: Does the page use proper semantic tags (h1-h6, main, section, article)?"
    +:+ line EmptyString
    +:+ indent +:+ "Provide a summary of findings for each point.".

Definition max_html : nat := N.to_nat 30000.

Definition contents (html : string) : string :=
  head +:+ Str.substring_to max_html html +:+ tail.
End Prompt.

Section Analyzer.

Variable engine : Engine.

(** [const { html } = v]: a TypeError on [null] and [undefined]; the own
    property of an object; [undefined] on the other values, none of
    whose prototypes defines [html]. *)
Definition destructure_html (v : JsVal) : Completion JsVal :=
  match v with
  | JUndefined | JNull => Throw (TypeError_destructure engine v)
  | JObj o => Normal (get "html" o)
  | JBool _ | JNum _ | JStr _ | JArr _ => Normal JUndefined
  end.

(** The template literal of [contents], which evaluates
    [html.substring(0, 30000)]: defined on a string only; on every other
    value the property read or the call raises a TypeError. *)
Definition contents_of (html : JsVal) : Completion string :=
  match html with
  | JStr s => Normal (Prompt.contents s)
  | _ => Throw (TypeError_substring engine html)
  end.

(** [response.text || '{}'] *)
Definition text_or_empty_object (t : option string) : string :=
  match t with
  | Some s => if Str.is_empty s then "{}" else s
  | None => "{}"
  end.

(** The record of the success path: [{ url, status: 'success', ...data }]. *)
Definition success_record (url : string) (data : JsVal) : Obj :=
  spread_onto {[ Field.url := JStr url; Field.status := Status.success ]} data.

(** The record the catch block builds. *)
Definition error_record (url : string) (e : Error) : Obj :=
  {[ Field.url := JStr url;
     Field.status := Status.error;
     Field.missingToC := JBool false;
     Field.deepLinkableAnchors := JBool false;
     Field.naturalLanguageHeadings := JBool false;
     Field.highInformationDensity := JBool false;
     Field.semanticHtml := JBool false;
     Field.summary := JStr EmptyString;
     Field.error := JStr (message e) ]}.

(** The body of the [try] block. *)
Definition analyzeUrl_try (c : Collaborators) (url : string) : Completion Obj :=
  fetchResponse ← fetch c url;
  if negb (ok fetchResponse) then
    Throw (mkError ("Failed to fetch page content: " +:+ statusText fetchResponse))
  else
    body ← json fetchResponse;
    html ← destructure_html body;
    contents ← contents_of html;
    response ← generateContent c contents;
    data ← JSON_parse engine (text_or_empty_object (text response));
    Normal (success_record url data).

Definition analyzeUrl (c : Collaborators) (url : string) : Completion Obj :=
  try_catch (analyzeUrl_try c url) (fun e => Normal (error_record url e)).

End Analyzer.

(** ** handleAnalyze *)

(** The outside world of a run: its behaviour during the analysis started
    at each position of the URL list.  The loop awaits one analysis before
    it starts the next, so there is one analysis per position. *)
Definition World : Type := nat -> Collaborators.

(** What a run of [handleAnalyze] does to the component's state:
    the successive values of [results], one per [setResults] call, oldest
    first; the array [newResults]; the exception that ended the loop, if
    any; and the value [isAnalyzing] is left with ([None]: never set). *)
Record Run : Type := {
  published : list (list Obj);
  newResults : list Obj;
  raised : option Error;
  isAnalyzing : option bool
}.

Section Orchestrator.

Variable engine : Engine.
Variable world : World.

(** [urls.split('\n').map(u => u.trim()).filter(u => u.length > 0)] *)
Definition urlList_of (urls : string) : list string :=
  List.filter (fun u => negb (Str.is_empty u))
              (List.map Str.trim (Str.split_lines urls)).

(** The record [handleAnalyze] seeds for a URL. *)
Definition pending_record (url : string) : Obj :=
  {[ Field.url := JStr url;
     Field.status := Status.pending;
     Field.missingToC := JBool false;
     Field.deepLinkableAnchors := JBool false;
     Field.naturalLanguageHeadings := JBool false;
     Field.highInformationDensity := JBool false;
     Field.semanticHtml := JBool false;
     Field.summary := JStr EmptyString ]}.

(** [r.url === url] *)
Definition url_is (url : string) (r : Obj) : bool :=
  match get Field.url r with
  | JStr s => String.eqb s url
  | _ => false
  end.

(** The updater [prev => prev.map(r => r.url === url ? result : r)]. *)
Definition replace_by_url (url : string) (result : Obj) (prev : list Obj)
  : list Obj :=
  List.map (fun r => if url_is url r then result else r) prev.

(** The [for ... of] loop from position [i] on, [prev] being the current
    value of [results]: the values it publishes, what it pushes to
    [newResults], and the exception that leaves it if [await analyzeUrl]
    throws. *)
Fixpoint analyze_from (i : nat) (urlList : list string) (prev : list Obj)
  : list (list Obj) * list Obj * option Error :=
  match urlList with
  | [] => ([], [], None)
  | url :: rest =>
      match analyzeUrl engine (world i) url with
      | Throw e => ([], [], Some e)
      | Normal result =>
          let next := replace_by_url url result prev in
          let '(states, pushed, exn) := analyze_from (S i) rest next in
          (next :: states, result :: pushed, exn)
      end
  end.

Definition handleAnalyze (urls : string) : Run :=
  let urlList := urlList_of urls in
  match urlList with
  | [] => {| published := []; newResults := []; raised := None;
             isAnalyzing := None |}
  | _ :: _ =>
      let seeded := List.map pending_record urlList in
      let '(states, pushed, exn) := analyze_from 0 urlList seeded in
      {| published := seeded :: states;
         newResults := pushed;
         raised := exn;
         isAnalyzing := Some (match exn with None => false | Some _ => true end) |}
  end.

End Orchestrator.

(** ** onDrop: the spreadsheet import *)

(** A row object of [XLSX.utils.sheet_to_json]: its properties, in the order
    [Object.values] enumerates them. *)
Definition Row : Type := list (string * JsVal).

Module Intake.

(** [row.URL] *)
Definition row_URL (row : Row) : JsVal :=
  match List.find (fun kv => String.eqb (fst kv) "URL") row with
  | Some kv => snd kv
  | None => JUndefined
  end.

(** [Object.values(row)[0]] *)
Definition first_value (row : Row) : JsVal :=
  match row with
  | [] => JUndefined
  | kv :: _ => snd kv
  end.

(** [row => row.URL || Object.values(row)[0]] *)
Definition candidate (row : Row) : JsVal := js_or (row_URL row) (first_value row).

(** [url => typeof url === 'string' && url.startsWith('http')] *)
Definition kept (v : JsVal) : bool :=
  match v with
  | JStr s => Str.startsWith "http" s
  | _ => false
  end.

(** The text of an element that passed the filter (a string, by the
    [typeof] test), as [join] reads it. *)
Definition text_of (v : JsVal) : string :=
  match v with JStr s => s | _ => EmptyString end.

Definition extractedUrls (jsonData : list Row) : string :=
  Str.join Str.newline
    (List.map text_of (List.filter kept (List.map candidate jsonData))).

(** The updater [prev => prev ? `${prev}\n${extractedUrls}` : extractedUrls]
    applied to the text area's content. *)
Definition onDrop (jsonData : list Row) (prev : string) : string :=
  let extracted := extractedUrls jsonData in
  if Str.is_empty prev then extracted
  else prev +:+ Str.newline +:+ extracted.

End Intake.

(** ** exportToExcel *)

(** A row handed to [XLSX.utils.json_to_sheet], by column. *)
Record ExportRow : Type := {
  col_URL : JsVal;
  col_Status : JsVal;
  col_Missing_ToC : string;
  col_Deep_Linkable_Anchors : string;
  col_Natural_Language_Headings : string;
  col_High_Info_Density : string;
  col_Semantic_HTML : string;
  col_Summary : JsVal;
  col_Error : JsVal
}.

Module Sheet.

(** [v ? 'Yes' : 'No'] *)
Definition yes_no (v : JsVal) : string := if truthy v then "Yes" else "No".

Definition row_of (r : Obj) : ExportRow :=
  {| col_URL := get Field.url r;
     col_Status := get Field.status r;
     col_Missing_ToC := yes_no (get Field.missingToC r);
     col_Deep_Linkable_Anchors := yes_no (get Field.deepLinkableAnchors r);
     col_Natural_Language_Headings := yes_no (get Field.naturalLanguageHeadings r);
     col_High_Info_Density := yes_no (get Field.highInformationDensity r);
     col_Semantic_HTML := yes_no (get Field.semanticHtml r);
     col_Summary := get Field.summary r;
     col_Error := js_or (get Field.error r) (JStr EmptyString) |}.

(** The rows [exportToExcel] builds from [results]. *)
Definition exportToExcel (results : list Obj) : list ExportRow :=
  List.map row_of results.

End Sheet.

(** ** What the component renders from its state *)

Module View.

(** [r.status === v] for a string literal [v]. *)
Definition status_is (v : string) (r : Obj) : bool :=
  match get Field.status r with
  | JStr s => String.eqb s v
  | _ => false
  end.

(** The badge [results.filter(r => r.status === 'success').length]. *)
Definition successCount (results : list Obj) : nat :=
  length (List.filter (status_is "success") results).

(** The badge [results.filter(r => r.status === 'error').length]. *)
Definition errorCount (results : list Obj) : nat :=
  length (List.filter (status_is "error") results).

(** The class of the status dot of a card that depends on the status (the
    second argument of [cn]). *)
Definition dot_class (r : Obj) : string :=
  if status_is "pending" r then "bg-amber-400 animate-pulse"
  else if status_is "success" r then "bg-emerald-500"
  else "bg-rose-500".

(** The parts of a card, each behind its own test of the status: the grid
    of checks and the summary, the error message, the spinner. *)
Definition shows_checks (r : Obj) : bool := status_is "success" r.
Definition shows_summary (r : Obj) : bool := status_is "success" r.
Definition shows_error (r : Obj) : bool := status_is "error" r.
Definition shows_spinner (r : Obj) : bool := status_is "pending" r.

(** The five checks of a card: label and value. *)
Definition checks (r : Obj) : list (string * JsVal) :=
  [ ("ToC Present", JBool (negb (truthy (get Field.missingToC r))));
    ("Deep Links", get Field.deepLinkableAnchors r);
    ("Natural Headings", get Field.naturalLanguageHeadings r);
    ("Info Density", get Field.highInformationDensity r);
    ("Semantic HTML", get Field.semanticHtml r) ].

(** [check.value ? 'Pass' : 'Fail'] *)
Definition verdict (v : JsVal) : string := if truthy v then "Pass" else "Fail".

(** [results.length > 0], the test before the Clear and Export buttons and
    before the results section. *)
Definition has_results (results : list Obj) : bool :=
  negb (Nat.eqb (length results) 0).

(** [disabled={isAnalyzing || !urls.trim()}] of the Start Analysis button. *)
Definition analyze_disabled (isAnalyzing : bool) (urls : string) : bool :=
  isAnalyzing || negb (truthy (JStr (Str.trim urls))).

End View.

(** * The vocabulary of the properties *)

(** ** The stages of an analysis *)

Section Stages.

Variable engine : Engine.
Variable c : Collaborators.
Variable url : string.

(** Content retrieval succeeded and the prompt [contents] was built. *)
Definition retrieved (contents : string) : Prop :=
  exists fr body html,
    fetch c url = Normal fr /\ ok fr = true /\ json fr = Normal body /\
    destructure_html engine body = Normal html /\
    contents_of engine html = Normal contents.

(** The scoring call was made and resolved with [resp]. *)
Definition scored_with (resp : GenerateContentResponse) : Prop :=
  exists contents, retrieved contents /\ generateContent c contents = Normal resp.

(** Retrieval failure: the proxy cannot be reached, answers with a
    non-OK status, or answers with a body that yields no HTML string. *)
Inductive retrieval_fails : Error -> Prop :=
| fetch_rejects e :
    fetch c url = Throw e -> retrieval_fails e
| response_not_ok fr :
    fetch c url = Normal fr -> ok fr = false ->
    retrieval_fails (mkError ("Failed to fetch page content: " +:+ statusText fr))
| body_rejects fr e :
    fetch c url = Normal fr -> ok fr = true -> json fr = Throw e ->
    retrieval_fails e
| body_without_html fr body e :
    fetch c url = Normal fr -> ok fr = true -> json fr = Normal body ->
    destructure_html engine body = Throw e -> retrieval_fails e
| html_not_a_string fr body html e :
    fetch c url = Normal fr -> ok fr = true -> json fr = Normal body ->
    destructure_html engine body = Normal html ->
    contents_of engine html = Throw e -> retrieval_fails e.

(** Scoring failure: the scoring call rejects, or its text is not JSON. *)
Inductive scoring_fails : Error -> Prop :=
| scoring_rejects contents e :
    retrieved contents -> generateContent c contents = Throw e ->
    scoring_fails e
| response_not_json resp e :
    scored_with resp ->
    JSON_parse engine (text_or_empty_object (text resp)) = Throw e ->
    scoring_fails e.

Definition fails (e : Error) : Prop := retrieval_fails e \/ scoring_fails e.

(** The scoring response of the analysis, if it gets one that parses,
    carries no property named [k]. *)
Definition response_lacks (k : string) : Prop :=
  forall resp data,
    scored_with resp ->
    JSON_parse engine (text_or_empty_object (text resp)) = Normal data ->
    own_props data !! k = None.

(** The record an analysis ends with, whichever way it goes. *)
Definition result_of : Obj :=
  match analyzeUrl_try engine c url with
  | Normal r => r
  | Throw e => error_record url e
  end.

End Stages.

(** ** The states of a run *)

(** The values of [results] the loop publishes from [prev] on, given the
    URL and the returned record of each iteration. *)
Fixpoint states_with (steps : list (string * Obj)) (prev : list Obj)
  : list (list Obj) :=
  match steps with
  | [] => []
  | (url, result) :: rest =>
      let next := replace_by_url url result prev in
      next :: states_with rest next
  end.

(** The iterations of the loop from position [i] on: each URL with the
    record its analysis ends with. *)
Fixpoint steps_from (engine : Engine) (world : World) (i : nat)
    (urlList : list string) : list (string * Obj) :=
  match urlList with
  | [] => []
  | url :: rest =>
      (url, result_of engine (world i) url) :: steps_from engine world (S i) rest
  end.

(** Every record of [steps] carries the URL it was returned for. *)
Definition own_url (steps : list (string * Obj)) : Prop :=
  Forall (fun step => get Field.url (snd step) = JStr (fst step)) steps.

(** The value of [results] a run leaves. *)
Definition final_state (run : Run) : list Obj :=
  List.last (published run) [].

(** [status] is one of the two terminal values. *)
Definition terminal (v : JsVal) : Prop := v = Status.success \/ v = Status.error.

(** ** Characters of a string *)

(** Every code unit of [s] satisfies [p]. *)
Fixpoint all_chars (p : ascii -> bool) (s : string) : bool :=
  match s with
  | EmptyString => true
  | String c rest => p c && all_chars p rest
  end.

(** [s] is blank: white space and line terminators only. *)
Definition blank (s : string) : bool := all_chars Str.is_white_space s.

(** [s] holds no line feed. *)
Definition one_line (s : string) : bool :=
  all_chars (fun c => negb (Ascii.eqb c Str.LF)) s.

(** A line as [handleAnalyze] keeps it: not empty, trimmed, without line
    feed. *)
Definition clean_line (u : string) : Prop :=
  u <> EmptyString /\ Str.trim u = u /\ one_line u = true.

(** ** The latest record of a URL *)

(** The record of the last of [steps] made for [url], if any. *)
Fixpoint latest (steps : list (string * Obj)) (url : string) : option Obj :=
  match steps with
  | [] => None
  | (u, r) :: rest =>
      match latest rest url with
      | Some r' => Some r'
      | None => if String.eqb u url then Some r else None
      end
  end.

(** The record shown for [url] after [steps]: the latest one made for it,
    and the pending record before any. *)
Definition shown_after (steps : list (string * Obj)) (url : string) : Obj :=
  default (pending_record url) (latest steps url).

(** ** The specification's words for the import filter *)

(** In the specification's words, the import keeps the values that look
    like an absolute HTTP(S) URL: strings that begin with the scheme [http]
    or [https] and the [://] that makes a URL absolute. *)
Definition looks_like_absolute_http_url (v : JsVal) : bool :=
  match v with
  | JStr s => Str.startsWith "http://" s || Str.startsWith "https://" s
  | _ => false
  end.

(** ** The interface AnalysisResult, as a predicate on records *)

Definition is_boolean (v : JsVal) : Prop := exists b, v = JBool b.

Record conforms (r : Obj) : Prop := {
  conforms_url : is_string (get Field.url r) = true;
  conforms_status :
    get Field.status r = Status.pending \/ terminal (get Field.status r);
  conforms_criteria : Forall (fun k => is_boolean (get k r)) Field.criteria;
  conforms_summary : is_string (get Field.summary r) = true;
  conforms_error :
    r !! Field.error = None \/ is_string (get Field.error r) = true
}.

(** ** Responses that keep to the schema *)

(** The object has the six properties the response schema declares and no
    other, the five criteria being booleans and the summary a string. *)
Definition within_schema (o : Obj) : Prop :=
  dom o = list_to_set Field.expected /\
  Forall (fun k => is_boolean (get k o)) Field.criteria /\
  is_string (get Field.summary o) = true.

(** ** Example collaborators *)

Module Demo.

Definition dq : string := String "034"%char EmptyString.
Definition quoted (s : string) : string := dq +:+ s +:+ dq.
Definition member (k v : string) : string := quoted k +:+ ":" +:+ v.

(** A response that names the page differently: an object with the one
    member url, the string https://z.example. *)
Definition text_other_url : string :=
  "{" +:+ member "url" (quoted "https://z.example") +:+ "}".

(** A response with a member the schema does not declare: note, true. *)
Definition text_with_note : string :=
  "{" +:+ member "missingToC" "true" +:+ "," +:+ member "note" "true" +:+ "}".

(** The response of the specification's first scenario. *)
Definition text_scores : string :=
  "{" +:+ member "missingToC" "true"
      +:+ "," +:+ member "deepLinkableAnchors" "false"
      +:+ "," +:+ member "naturalLanguageHeadings" "true"
      +:+ "," +:+ member "highInformationDensity" "false"
      +:+ "," +:+ member "semanticHtml" "true"
      +:+ "," +:+ member "summary" (quoted "ok") +:+ "}".

(** A response with a status member of its own: status, pending. *)
Definition text_still_pending : string :=
  "{" +:+ member "status" (quoted "pending") +:+ "}".

(** A response with an error member that is no string: error, true. *)
Definition text_error_flag : string :=
  "{" +:+ member "error" "true" +:+ "}".

Definition scores : Obj :=
  {[ Field.missingToC := JBool true;
     Field.deepLinkableAnchors := JBool false;
     Field.naturalLanguageHeadings := JBool true;
     Field.highInformationDensity := JBool false;
     Field.semanticHtml := JBool true;
     Field.summary := JStr "ok" ]}.

(** [JSON.parse] at the texts used below; any other text is taken for
    malformed. *)
Definition parse (t : string) : Completion JsVal :=
  if String.eqb t "{}" then Normal (JObj ∅)
  else if String.eqb t "null" then Normal JNull
  else if String.eqb t text_other_url then
    Normal (JObj {[ Field.url := JStr "https://z.example" ]})
  else if String.eqb t text_with_note then
    Normal (JObj {[ Field.missingToC := JBool true; "note" := JBool true ]})
  else if String.eqb t text_scores then Normal (JObj scores)
  else if String.eqb t text_still_pending then
    Normal (JObj {[ Field.status := Status.pending ]})
  else if String.eqb t text_error_flag then
    Normal (JObj {[ Field.error := JBool true ]})
  else Throw (mkError "Unexpected token in JSON").

Definition engine : Engine := {|
  JSON_parse := parse;
  TypeError_destructure := fun _ =>
    mkError "Cannot destructure property 'html' of the response body";
  TypeError_substring := fun _ => mkError "html.substring is not a function"
|}.

(** The proxy's answer for a page. *)
Definition page (html : string) : FetchResponse :=
  {| ok := true; statusText := "OK";
     json := Normal (JObj {[ "html" := JStr html ]}) |}.

(** The page is retrieved and the scoring call resolves with [t]. *)
Definition answering (t : option string) : Collaborators :=
  {| fetch := fun _ => Normal (page "<h1>Golf</h1>");
     generateContent := fun _ => Normal {| text := t |} |}.

(** The proxy cannot be reached. *)
Definition unreachable : Collaborators :=
  {| fetch := fun _ => Throw (mkError "Failed to fetch");
     generateContent := fun _ => Normal {| text := None |} |}.

(** The proxy answers 502. *)
Definition bad_gateway : Collaborators :=
  {| fetch := fun _ =>
       Normal {| ok := false; statusText := "Bad Gateway";
                 json := Normal JNull |};
     generateContent := fun _ => Normal {| text := None |} |}.

Definition always (c : Collaborators) : World := fun _ => c.

(** The first analysis fails, the later ones succeed. *)
Definition fail_then_succeed : World := fun i =>
  match i with
  | 0 => unreachable
  | S _ => answering None
  end.

(** The page is retrieved and the scoring call rejects. *)
Definition scoring_down : Collaborators :=
  {| fetch := fun _ => Normal (page "<h1>Golf</h1>");
     generateContent := fun _ => Throw (mkError "Service unavailable") |}.

(** The scoring of the second analysis fails, the others succeed. *)
Definition second_fails : World := fun i =>
  match i with
  | 1 => scoring_down
  | _ => answering (Some text_scores)
  end.

Definition a : string := "https://a.example".
Definition b : string := "https://b.example".
Definition two_lines (x y : string) : string := x +:+ Str.newline +:+ y.

End Demo.

(** * Properties *)

(** ** Reading the records the program builds *)

Lemma get_error_record_url url e :
  get Field.url (error_record url e) = JStr url.
Proof. reflexivity. Qed.

Lemma get_error_record_status url e :
  get Field.status (error_record url e) = Status.error.
Proof. reflexivity. Qed.

Lemma get_error_record_error url e :
  get Field.error (error_record url e) = JStr (message e).
Proof. reflexivity. Qed.

Lemma get_error_record_criteria url e :
  Forall (fun k => get k (error_record url e) = JBool false) Field.criteria.
Proof. repeat constructor. Qed.

Lemma get_error_record_summary url e :
  get Field.summary (error_record url e) = JStr EmptyString.
Proof. reflexivity. Qed.

Lemma get_pending_record_url url :
  get Field.url (pending_record url) = JStr url.
Proof. reflexivity. Qed.

Lemma get_pending_record_status url :
  get Field.status (pending_record url) = Status.pending.
Proof. reflexivity. Qed.

(** A property of the spread record is the response's when the response has
    one of that name, and the literal's otherwise. *)
Lemma lookup_success_record url data k :
  success_record url data !! k =
    match own_props data !! k with
    | Some v => Some v
    | None => ({[ Field.url := JStr url; Field.status := Status.success ]} : Obj) !! k
    end.
Proof.
  unfold success_record, spread_onto.
  rewrite lookup_union.
  destruct (own_props data !! k) as [v|] eqn:Hk.
  - now rewrite union_Some_l.
  - now rewrite (left_id_L None _).
Qed.

(** ** The stages of an analysis, and what [analyzeUrl] returns *)

Section StageFacts.

Variable engine : Engine.
Variable c : Collaborators.
Variable url : string.

Lemma retrieved_then contents (k : string -> Completion Obj) :
  retrieved engine c url contents ->
  (fetchResponse ← fetch c url;
   if negb (ok fetchResponse) then
     Throw (mkError ("Failed to fetch page content: "
                       +:+ statusText fetchResponse))
   else
     body ← json fetchResponse;
     html ← destructure_html engine body;
     contents ← contents_of engine html;
     k contents) = k contents.
Proof.
  intros (fr & body & html & H & Hok & Hj & Hd & Hc).
  rewrite H; cbn. rewrite Hok; cbn. rewrite Hj; cbn. rewrite Hd; cbn.
  now rewrite Hc.
Qed.

Lemma fails_throws e : fails engine c url e -> analyzeUrl_try engine c url = Throw e.
Proof.
  unfold analyzeUrl_try.
  intros [Hr | Hs].
  - destruct Hr as [e H | fr H Hok | fr e H Hok Hj | fr body e H Hok Hj Hd
                   | fr body html e H Hok Hj Hd Hc];
      rewrite H; cbn; try reflexivity; rewrite Hok; cbn; try reflexivity;
      rewrite Hj; cbn; try reflexivity; rewrite Hd; cbn; try reflexivity;
      now rewrite Hc.
  - destruct Hs as [contents e Hr Hg | resp e (contents & Hr & Hg) Hp].
    + rewrite (retrieved_then contents (fun contents => _) Hr). now rewrite Hg.
    + rewrite (retrieved_then contents (fun contents => _) Hr). rewrite Hg; cbn.
      now rewrite Hp.
Qed.

Lemma scored_returns resp data :
  scored_with engine c url resp ->
  JSON_parse engine (text_or_empty_object (text resp)) = Normal data ->
  analyzeUrl_try engine c url = Normal (success_record url data).
Proof.
  intros (contents & Hr & Hg) Hp. unfold analyzeUrl_try.
  rewrite (retrieved_then contents (fun contents => _) Hr).
  rewrite Hg; cbn. now rewrite Hp.
Qed.

(** The [try] block completes in one of exactly these ways. *)
Lemma analyzeUrl_try_cases :
  (exists e, fails engine c url e /\ analyzeUrl_try engine c url = Throw e) \/
  (exists resp data,
      scored_with engine c url resp /\
      JSON_parse engine (text_or_empty_object (text resp)) = Normal data /\
      analyzeUrl_try engine c url = Normal (success_record url data)).
Proof.
  destruct (fetch c url) as [fr|e] eqn:H.
  2:{ left; exists e; split; [left; now constructor|]. unfold analyzeUrl_try. now rewrite H. }
  destruct (ok fr) eqn:Hok.
  2:{ left; eexists; split; [left; now apply (response_not_ok _ _ _ fr)|].
      unfold analyzeUrl_try. rewrite H; cbn. now rewrite Hok. }
  destruct (json fr) as [body|e] eqn:Hj.
  2:{ left; exists e. assert (F : fails engine c url e) by (left; now apply (body_rejects _ _ _ fr)).
      split; [exact F | now apply fails_throws]. }
  destruct (destructure_html engine body) as [html|e] eqn:Hd.
  2:{ left; exists e. assert (F : fails engine c url e) by (left; now apply (body_without_html _ _ _ fr body)).
      split; [exact F | now apply fails_throws]. }
  destruct (contents_of engine html) as [contents|e] eqn:Hc.
  2:{ left; exists e. assert (F : fails engine c url e) by (left; now apply (html_not_a_string _ _ _ fr body html)).
      split; [exact F | now apply fails_throws]. }
  assert (Hr : retrieved engine c url contents) by (exists fr, body, html; tauto).
  destruct (generateContent c contents) as [resp|e] eqn:Hg.
  2:{ left; exists e. assert (F : fails engine c url e) by (right; now apply (scoring_rejects _ _ _ contents)).
      split; [exact F | now apply fails_throws]. }
  assert (Hs : scored_with engine c url resp) by (exists contents; tauto).
  destruct (JSON_parse engine (text_or_empty_object (text resp))) as [data|e] eqn:Hp.
  2:{ left; exists e. assert (F : fails engine c url e) by (right; now apply (response_not_json _ _ _ resp)).
      split; [exact F | now apply fails_throws]. }
  right; exists resp, data. split; [exact Hs|]. split; [exact Hp|].
  now apply scored_returns with resp.
Qed.

Lemma throws_fails e : analyzeUrl_try engine c url = Throw e -> fails engine c url e.
Proof.
  intros Ht.
  destruct analyzeUrl_try_cases as [(e' & F & Ht') | (resp & data & _ & _ & Hn)];
    congruence.
Qed.

Lemma analyzeUrl_result : analyzeUrl engine c url = Normal (result_of engine c url).
Proof.
  unfold analyzeUrl, result_of, try_catch.
  now destruct (analyzeUrl_try engine c url).
Qed.

Lemma analyzeUrl_fails e :
  fails engine c url e -> analyzeUrl engine c url = Normal (error_record url e).
Proof.
  intros F. unfold analyzeUrl. now rewrite (fails_throws e F).
Qed.

Lemma analyzeUrl_scored resp data :
  scored_with engine c url resp ->
  JSON_parse engine (text_or_empty_object (text resp)) = Normal data ->
  analyzeUrl engine c url = Normal (success_record url data).
Proof.
  intros Hs Hp. unfold analyzeUrl. now rewrite (scored_returns resp data Hs Hp).
Qed.

End StageFacts.

(** ** The page analyzer *)

(** The records of the seeding and of the catch block conform to the
    interface. *)
Lemma pending_record_conforms (url : string) : conforms (pending_record url).
Proof.
  split; try reflexivity.
  - now left.
  - repeat constructor; now eexists.
  - now left.
Qed.

Lemma error_record_conforms (url : string) (e : Error) :
  conforms (error_record url e).
Proof.
  split; try reflexivity.
  - right. now right.
  - repeat constructor; now eexists.
  - now right.
Qed.


Lemma retrieved_page (c : Collaborators) (url html : string) :
  fetch c url = Normal (Demo.page html) ->
  retrieved Demo.engine c url (Prompt.contents html).
Proof.
  intros Hf. exists (Demo.page html), (JObj {[ "html" := JStr html ]}), (JStr html).
  repeat split. exact Hf.
Qed.

Lemma scored_with_answering (t : option string) (url : string) :
  scored_with Demo.engine (Demo.answering t) url {| text := t |}.
Proof.
  exists (Prompt.contents "<h1>Golf</h1>"). split; [|reflexivity].
  now apply retrieved_page.
Qed.

Lemma scoring_down_fails (url : string) :
  fails Demo.engine Demo.scoring_down url (mkError "Service unavailable").
Proof.
  right. apply (scoring_rejects _ _ _ (Prompt.contents "<h1>Golf</h1>"));
    [now apply retrieved_page|reflexivity].
Qed.

(** The text handed to [JSON.parse] is the text of the response when it is
    a non-empty string, and the text of the empty object otherwise. *)
Lemma text_or_empty_object_present (t : string) :
  t <> EmptyString -> text_or_empty_object (Some t) = t.
Proof. now destruct t. Qed.

Lemma text_or_empty_object_absent (o : option string) :
  o = None \/ o = Some EmptyString -> text_or_empty_object o = "{}".
Proof. now intros [-> | ->]. Qed.

Lemma text_or_empty_object_cases (o : option string) :
  (exists t, o = Some t /\ t <> EmptyString /\ text_or_empty_object o = t) \/
  ((o = None \/ o = Some EmptyString) /\ text_or_empty_object o = "{}").
Proof.
  destruct o as [[|a t]|].
  - right. split; [now right|reflexivity].
  - left. now exists (String a t).
  - right. split; [now left|reflexivity].
Qed.

(** C6, as the claim states it, fails: when the scoring response has no
    text, the analysis returns the literal of the success path alone, a
    record without the five criteria and without a summary, which is no
    [AnalysisResult]. *)
Lemma analyzeUrl_returns_incomplete_record :
  exists r,
    analyzeUrl Demo.engine (Demo.answering None) Demo.a = Normal r /\
    r = {[ Field.url := JStr Demo.a; Field.status := Status.success ]} /\
    Forall (fun k => r !! k = None) Field.expected /\
    get Field.summary r = JUndefined /\
    ~ conforms r.
Proof.
  exists {[ Field.url := JStr Demo.a; Field.status := Status.success ]}.
  split; [reflexivity|]. split; [reflexivity|].
  split; [repeat constructor|]. split; [reflexivity|].
  intros H. pose proof (conforms_summary _ H) as E. discriminate E.
Qed.

(** C6, amended.  [analyzeUrl] never raises: whatever the fetch and scoring
    collaborators and [JSON.parse] do, it returns a record, and it does so
    in one of two ways.  When a stage fails (retrieval or scoring) with the
    error [e], the record conforms to the interface and has exactly the
    nine properties of the catch block: the URL, the status error, the
    message of [e] as its error, the five criteria false and the empty
    summary; after a non-OK answer of the proxy that message is the fixed
    text followed by the status text.  Otherwise the scoring call has
    resolved and its text [t] (the text of the empty object when the
    response has no text or an empty one) has parsed to [data]; then the
    record has every own property of [data], the URL and the status success
    where [data] has no property of that name, and nothing else: it has the
    criteria and the summary only as far as the response has them. *)
Theorem analyzeUrl_never_raises (engine : Engine) (c : Collaborators) (url : string) :
  (exists r, analyzeUrl engine c url = Normal r) /\
  ((exists e, fails engine c url e) \/
   (exists resp t data,
       scored_with engine c url resp /\
       ((text resp = Some t /\ t <> EmptyString) \/
        ((text resp = None \/ text resp = Some EmptyString) /\ t = "{}")) /\
       JSON_parse engine t = Normal data)) /\
  (forall e, fails engine c url e ->
     exists r, analyzeUrl engine c url = Normal r /\
       conforms r /\
       get Field.url r = JStr url /\
       get Field.status r = Status.error /\
       get Field.error r = JStr (message e) /\
       Forall (fun k => get k r = JBool false) Field.criteria /\
       get Field.summary r = JStr EmptyString /\
       dom r = list_to_set
                 (Field.url :: Field.status :: Field.error :: Field.expected)) /\
  (forall fr, fetch c url = Normal fr -> ok fr = false ->
     exists r, analyzeUrl engine c url = Normal r /\
       get Field.status r = Status.error /\
       get Field.error r =
         JStr ("Failed to fetch page content: " +:+ statusText fr)) /\
  (forall resp t data,
     scored_with engine c url resp ->
     (text resp = Some t /\ t <> EmptyString) \/
       ((text resp = None \/ text resp = Some EmptyString) /\ t = "{}") ->
     JSON_parse engine t = Normal data ->
     exists r, analyzeUrl engine c url = Normal r /\
       (forall k v, own_props data !! k = Some v -> r !! k = Some v) /\
       (own_props data !! Field.url = None ->
          r !! Field.url = Some (JStr url)) /\
       (own_props data !! Field.status = None ->
          r !! Field.status = Some (JStr "success")) /\
       (forall k, own_props data !! k = None ->
          k <> Field.url -> k <> Field.status -> r !! k = None)).
Proof.
  split; [|split; [|split; [|split]]].
  - exists (result_of engine c url). apply analyzeUrl_result.
  - destruct (analyzeUrl_try_cases engine c url)
      as [(e & F & _) | (resp & data & Hs & Hp & _)].
    + left. now exists e.
    + right. exists resp, (text_or_empty_object (text resp)), data.
      split; [exact Hs|]. split; [|exact Hp].
      destruct (text_or_empty_object_cases (text resp))
        as [(t & Ht & Hne & ->) | (Ht & ->)]; [left|right]; now split.
  - intros e F. exists (error_record url e).
    split; [now apply analyzeUrl_fails|].
    split; [apply error_record_conforms|].
    split; [apply get_error_record_url|].
    split; [apply get_error_record_status|].
    split; [apply get_error_record_error|].
    split; [apply get_error_record_criteria|].
    split; [apply get_error_record_summary|].
    apply (bool_decide_unpack _). vm_compute. exact I.
  - intros fr H Hok. eexists. split.
    + apply analyzeUrl_fails. left. now apply (response_not_ok _ _ _ fr).
    + split; reflexivity.
  - intros resp t data Hs Ht Hp. exists (success_record url data).
    assert (Hd : text_or_empty_object (text resp) = t).
    { destruct Ht as [(Ht & Hne) | (Ht & ->)].
      - rewrite Ht. now apply text_or_empty_object_present.
      - now apply text_or_empty_object_absent. }
    split; [apply analyzeUrl_scored with resp; [exact Hs|now rewrite Hd]|].
    split; [|split; [|split]].
    + intros k v Hk. now rewrite lookup_success_record, Hk.
    + intros Hk. now rewrite lookup_success_record, Hk.
    + intros Hk. now rewrite lookup_success_record, Hk.
    + intros k Hk Hu Hst. rewrite lookup_success_record, Hk.
      rewrite lookup_insert_ne by (intros E; now apply Hu).
      apply lookup_singleton_ne. intros E; now apply Hst.
Qed.

(** Five ways through [analyzeUrl] on example collaborators: the proxy
    cannot be reached; it answers 502; the scoring call rejects; the
    scoring text is no JSON; the scoring text is the object of six
    members. *)
Lemma analyzeUrl_never_raises_witness :
  (exists r, analyzeUrl Demo.engine Demo.unreachable Demo.a = Normal r /\
     conforms r /\
     get Field.status r = JStr "error" /\
     get Field.error r = JStr "Failed to fetch" /\
     get Field.missingToC r = JBool false /\
     get Field.summary r = JStr EmptyString) /\
  (exists r, analyzeUrl Demo.engine Demo.bad_gateway Demo.a = Normal r /\
     get Field.status r = JStr "error" /\
     get Field.error r = JStr "Failed to fetch page content: Bad Gateway") /\
  (exists r, analyzeUrl Demo.engine Demo.scoring_down Demo.a = Normal r /\
     get Field.status r = JStr "error" /\
     get Field.error r = JStr "Service unavailable") /\
  (exists r,
     analyzeUrl Demo.engine (Demo.answering (Some "oops")) Demo.a = Normal r /\
     get Field.status r = JStr "error" /\
     get Field.error r = JStr "Unexpected token in JSON") /\
  (exists r,
     analyzeUrl Demo.engine (Demo.answering (Some Demo.text_scores)) Demo.a
       = Normal r /\
     r !! Field.url = Some (JStr Demo.a) /\
     r !! Field.status = Some (JStr "success") /\
     r !! Field.missingToC = Some (JBool true) /\
     r !! Field.deepLinkableAnchors = Some (JBool false) /\
     r !! Field.summary = Some (JStr "ok") /\
     r !! Field.error = None).
Proof.
  split; [|split; [|split; [|split]]].
  - destruct (analyzeUrl_never_raises Demo.engine Demo.unreachable Demo.a)
      as (_ & _ & Hf & _).
    destruct (Hf (mkError "Failed to fetch"))
      as (r & Hr & Hc & _ & Hs & He & Hcr & Hsum & _);
      [left; now constructor|].
    exists r. split; [exact Hr|]. split; [exact Hc|]. split; [exact Hs|].
    split; [exact He|]. split; [exact (Forall_inv Hcr)|exact Hsum].
  - destruct (analyzeUrl_never_raises Demo.engine Demo.bad_gateway Demo.a)
      as (_ & _ & _ & Hn & _).
    destruct (Hn _ eq_refl eq_refl) as (r & Hr & Hs & He).
    exists r. repeat split; assumption.
  - destruct (analyzeUrl_never_raises Demo.engine Demo.scoring_down Demo.a)
      as (_ & _ & Hf & _).
    destruct (Hf _ (scoring_down_fails Demo.a)) as (r & Hr & _ & _ & Hs & He & _).
    exists r. repeat split; assumption.
  - destruct (analyzeUrl_never_raises Demo.engine
                (Demo.answering (Some "oops")) Demo.a) as (_ & _ & Hf & _).
    destruct (Hf (mkError "Unexpected token in JSON"))
      as (r & Hr & _ & _ & Hs & He & _).
    { right. apply (response_not_json _ _ _ {| text := Some "oops" |});
        [apply scored_with_answering|reflexivity]. }
    exists r. repeat split; assumption.
  - destruct (analyzeUrl_never_raises Demo.engine
                (Demo.answering (Some Demo.text_scores)) Demo.a)
      as (_ & _ & _ & _ & Hok).
    destruct (Hok {| text := Some Demo.text_scores |} Demo.text_scores
                (JObj Demo.scores) (scored_with_answering _ _))
      as (r & Hr & Hcopy & Hu & Hst & Hno).
    { left. split; [reflexivity|discriminate]. }
    { reflexivity. }
    exists r. split; [exact Hr|].
    split; [now apply Hu|]. split; [now apply Hst|].
    split; [now apply Hcopy|]. split; [now apply Hcopy|].
    split; [now apply Hcopy|].
    apply Hno; [reflexivity|discriminate|discriminate].
Defined.

(** C7, as the claim states it, fails: a scoring response whose text is
    not JSON makes [JSON.parse] throw, and the record is the one of the
    catch block, with status error. *)
Lemma analyzeUrl_malformed_response_is_error :
  scored_with Demo.engine (Demo.answering (Some "oops")) Demo.a
    {| text := Some "oops" |} /\
  JSON_parse Demo.engine "oops" = Throw (mkError "Unexpected token in JSON") /\
  (exists r,
     analyzeUrl Demo.engine (Demo.answering (Some "oops")) Demo.a = Normal r /\
     get Field.status r = JStr "error" /\
     get Field.error r = JStr "Unexpected token in JSON" /\
     get Field.summary r = JStr EmptyString).
Proof.
  split; [apply scored_with_answering|]. split; [reflexivity|].
  eexists. repeat split; reflexivity.
Qed.

(** C7, amended.  Once the scoring call has resolved: when the text of the
    response is absent or empty, the text of the empty object is parsed in
    its place and the record is the literal alone, with status success and
    none of the six expected properties; the same record results when the
    text parses to a value without properties ([null], a number, a
    boolean); when [JSON.parse] throws on the text, nothing is substituted
    and the record is the one of the catch block: status error, the message
    of the thrown error, the five criteria false and the empty summary. *)
Theorem analyzeUrl_unusable_response
    (engine : Engine) (c : Collaborators) (url : string)
    (resp : GenerateContentResponse) :
  scored_with engine c url resp ->
  let bare : Obj := {[ Field.url := JStr url; Field.status := JStr "success" ]} in
  (get Field.status bare = Status.success /\
   Forall (fun k => bare !! k = None) Field.expected) /\
  (text resp = None \/ text resp = Some EmptyString ->
   JSON_parse engine "{}" = Normal (JObj ∅) ->
   analyzeUrl engine c url = Normal bare) /\
  (forall t data,
     text resp = Some t -> t <> EmptyString ->
     JSON_parse engine t = Normal data ->
     own_props data = ∅ ->
     analyzeUrl engine c url = Normal bare) /\
  (forall t e,
     text resp = Some t -> t <> EmptyString ->
     JSON_parse engine t = Throw e ->
     exists r, analyzeUrl engine c url = Normal r /\
       get Field.url r = JStr url /\
       get Field.status r = JStr "error" /\
       get Field.error r = JStr (message e) /\
       Forall (fun k => get k r = JBool false) Field.criteria /\
       get Field.summary r = JStr EmptyString).
Proof.
  intros Hs bare.
  assert (Hbare : forall data, own_props data = ∅ -> success_record url data = bare).
  { intros data He. unfold success_record, spread_onto. rewrite He.
    now rewrite (left_id_L ∅ _). }
  split; [|split; [|split]].
  - split; [reflexivity|]. repeat constructor.
  - intros Ht Hp.
    rewrite <- (Hbare (JObj ∅) eq_refl).
    apply analyzeUrl_scored with resp; [exact Hs|].
    now rewrite (text_or_empty_object_absent _ Ht).
  - intros t data Ht Hne Hp He. rewrite <- (Hbare data He).
    apply analyzeUrl_scored with resp; [exact Hs|].
    now rewrite Ht, (text_or_empty_object_present _ Hne).
  - intros t e Ht Hne Hp. exists (error_record url e). split.
    + apply analyzeUrl_fails. right.
      apply (response_not_json _ _ _ resp); [exact Hs|].
      now rewrite Ht, (text_or_empty_object_present _ Hne).
    + split; [apply get_error_record_url|].
      split; [apply get_error_record_status|].
      split; [apply get_error_record_error|].
      split; [apply get_error_record_criteria|apply get_error_record_summary].
Qed.

(** The four cases on example responses: no text and the empty text give
    the literal alone, and so does the text [null]; a text that is no JSON
    gives the record of the catch block. *)
Lemma analyzeUrl_unusable_response_witness :
  analyzeUrl Demo.engine (Demo.answering None) Demo.a
    = Normal {[ Field.url := JStr Demo.a; Field.status := JStr "success" ]} /\
  analyzeUrl Demo.engine (Demo.answering (Some EmptyString)) Demo.a
    = Normal {[ Field.url := JStr Demo.a; Field.status := JStr "success" ]} /\
  analyzeUrl Demo.engine (Demo.answering (Some "null")) Demo.a
    = Normal {[ Field.url := JStr Demo.a; Field.status := JStr "success" ]} /\
  (exists r,
     analyzeUrl Demo.engine (Demo.answering (Some "oops")) Demo.a = Normal r /\
     get Field.status r = JStr "error" /\
     get Field.error r = JStr "Unexpected token in JSON").
Proof.
  split; [|split; [|split]].
  - apply (analyzeUrl_unusable_response Demo.engine (Demo.answering None)
             Demo.a {| text := None |} (scored_with_answering None Demo.a)).
    + left; reflexivity.
    + reflexivity.
  - apply (analyzeUrl_unusable_response Demo.engine
             (Demo.answering (Some EmptyString)) Demo.a
             {| text := Some EmptyString |} (scored_with_answering _ Demo.a)).
    + right; reflexivity.
    + reflexivity.
  - destruct (analyzeUrl_unusable_response Demo.engine
                (Demo.answering (Some "null")) Demo.a
                {| text := Some "null" |} (scored_with_answering _ Demo.a))
      as (_ & _ & Hnull & _).
    apply (Hnull "null" JNull); [reflexivity|discriminate|reflexivity|reflexivity].
  - destruct (analyzeUrl_unusable_response Demo.engine
                (Demo.answering (Some "oops")) Demo.a
                {| text := Some "oops" |} (scored_with_answering _ Demo.a))
      as (_ & _ & _ & Hthrow).
    destruct (Hthrow "oops" (mkError "Unexpected token in JSON"))
      as (r & Hr & _ & Hst & He & _);
      [reflexivity|discriminate|reflexivity|].
    exists r. repeat split; assumption.
Defined.

(** C8, as the claim states it, fails: the spread copies every property of
    the parsed response.  A member the schema does not declare appears in
    the record, and a member named url replaces the original URL. *)
Lemma analyzeUrl_copies_unexpected_fields :
  (~ In "note" Field.expected /\
   JSON_parse Demo.engine Demo.text_with_note
     = Normal (JObj {[ Field.missingToC := JBool true; "note" := JBool true ]}) /\
   exists r,
     analyzeUrl Demo.engine (Demo.answering (Some Demo.text_with_note)) Demo.a
       = Normal r /\
     get "note" r = JBool true) /\
  (JSON_parse Demo.engine Demo.text_other_url
     = Normal (JObj {[ Field.url := JStr "https://z.example" ]}) /\
   exists r,
     analyzeUrl Demo.engine (Demo.answering (Some Demo.text_other_url)) Demo.a
       = Normal r /\
     get Field.url r = JStr "https://z.example" /\
     Demo.a = "https://a.example").
Proof.
  split.
  - split; [|split; [reflexivity|]].
    + intros H. repeat (destruct H as [H|H]; [discriminate H|]). exact H.
    + eexists. split; reflexivity.
  - split; [reflexivity|]. eexists. repeat split; reflexivity.
Qed.

(** C8, amended.  On a successful analysis the record is the literal with
    the URL and the status success, overlaid with every property of the
    parsed response: each property of the response appears in the record
    with the response's value, declared by the schema or not, [url] and
    [status] included; the record keeps the original URL and the status
    success when the response has no property of that name; and a name the
    response lacks, any of the six expected ones among them, is undefined
    in the record. *)
Theorem analyzeUrl_merges_response
    (engine : Engine) (c : Collaborators) (url : string)
    (resp : GenerateContentResponse) (data : JsVal) :
  scored_with engine c url resp ->
  JSON_parse engine (text_or_empty_object (text resp)) = Normal data ->
  exists r,
    analyzeUrl engine c url = Normal r /\
    (forall k v, own_props data !! k = Some v -> r !! k = Some v) /\
    (own_props data !! Field.url = None -> get Field.url r = JStr url) /\
    (own_props data !! Field.status = None ->
       get Field.status r = Status.success) /\
    (forall k, own_props data !! k = None ->
       k <> Field.url -> k <> Field.status -> r !! k = None) /\
    Forall (fun k => own_props data !! k = None -> get k r = JUndefined)
           Field.expected.
Proof.
  intros Hs Hp. exists (success_record url data).
  split; [now apply analyzeUrl_scored with resp|].
  assert (Hnone : forall k, own_props data !! k = None ->
            k <> Field.url -> k <> Field.status ->
            success_record url data !! k = None).
  { intros k Hk Hu Hst. rewrite lookup_success_record, Hk.
    rewrite lookup_insert_ne by congruence.
    now rewrite lookup_singleton_ne by congruence. }
  split; [|split; [|split; [|split]]].
  - intros k v Hk. now rewrite lookup_success_record, Hk.
  - intros Hk. unfold get. now rewrite lookup_success_record, Hk.
  - intros Hk. unfold get. now rewrite lookup_success_record, Hk.
  - exact Hnone.
  - unfold Field.expected, Field.criteria; cbn [app].
    repeat (constructor;
            [intros Hk; unfold get;
             now rewrite (Hnone _ Hk) by discriminate|]).
    constructor.
Qed.

Lemma analyzeUrl_merges_response_witness :
  exists r,
    analyzeUrl Demo.engine (Demo.answering (Some Demo.text_scores)) Demo.a
      = Normal r /\
    (forall k v, Demo.scores !! k = Some v -> r !! k = Some v) /\
    (Demo.scores !! Field.url = None -> get Field.url r = JStr Demo.a) /\
    (Demo.scores !! Field.status = None -> get Field.status r = Status.success) /\
    (forall k, Demo.scores !! k = None ->
       k <> Field.url -> k <> Field.status -> r !! k = None) /\
    Forall (fun k => Demo.scores !! k = None -> get k r = JUndefined)
           Field.expected.
Proof.
  apply (analyzeUrl_merges_response Demo.engine
           (Demo.answering (Some Demo.text_scores)) Demo.a
           {| text := Some Demo.text_scores |} (JObj Demo.scores)
           (scored_with_answering _ _)).
  reflexivity.
Defined.

(** ** The orchestrator *)

Lemma url_is_true url r : url_is url r = true <-> get Field.url r = JStr url.
Proof.
  unfold url_is. destruct (get Field.url r) as [| | | |s| |]; try (split; congruence).
  rewrite String.eqb_eq. split; congruence.
Qed.

Lemma url_is_other url url' r :
  get Field.url r = JStr url' -> url' <> url -> url_is url r = false.
Proof.
  intros Hg Hne. unfold url_is. rewrite Hg. now apply String.eqb_neq.
Qed.

Lemma replace_by_url_length url result prev :
  length (replace_by_url url result prev) = length prev.
Proof. apply length_map. Qed.

Lemma replace_by_url_app url result l1 l2 :
  replace_by_url url result (l1 ++ l2)
    = replace_by_url url result l1 ++ replace_by_url url result l2.
Proof. apply map_app. Qed.

Lemma replace_by_url_cons url result x l :
  replace_by_url url result (x :: l)
    = (if url_is url x then result else x) :: replace_by_url url result l.
Proof. reflexivity. Qed.

Lemma url_is_pending_record url url' :
  url_is url (pending_record url') = String.eqb url' url.
Proof. reflexivity. Qed.

(** Records of another URL are left alone. *)
Lemma replace_by_url_others url result l :
  Forall (fun r => url_is url r = false) l -> replace_by_url url result l = l.
Proof.
  induction 1 as [|r l Hr _ IH]; [reflexivity|].
  cbn. rewrite Hr. f_equal. exact IH.
Qed.

Lemma replace_by_url_lookup url result prev q x :
  prev !! q = Some x ->
  replace_by_url url result prev !! q
    = Some (if url_is url x then result else x).
Proof.
  intros Hq. unfold replace_by_url.
  change (List.map ?f prev) with (f <$> prev).
  now rewrite list_lookup_fmap, Hq.
Qed.

(** A replacement by a record that carries the URL it replaces keeps every
    [url] field. *)
Lemma replace_by_url_urls url result prev :
  get Field.url result = JStr url ->
  List.map (get Field.url) (replace_by_url url result prev)
    = List.map (get Field.url) prev.
Proof.
  intros Hr. unfold replace_by_url. rewrite List.map_map.
  apply List.map_ext. intros r.
  destruct (url_is url r) eqn:Hu; [|reflexivity].
  apply url_is_true in Hu. congruence.
Qed.

Lemma states_with_length steps prev :
  length (states_with steps prev) = length steps.
Proof.
  revert prev. induction steps as [|[u r] steps IH]; intros prev; cbn;
    [reflexivity|now rewrite IH].
Qed.

Lemma states_with_lengths steps prev :
  Forall (fun s => length s = length prev) (states_with steps prev).
Proof.
  revert prev. induction steps as [|[u r] steps IH]; intros prev; cbn.
  - constructor.
  - constructor; [apply replace_by_url_length|].
    eapply Forall_impl; [apply IH|].
    intros s Hs. cbn in Hs. now rewrite Hs, replace_by_url_length.
Qed.

Lemma states_with_urls steps prev :
  own_url steps ->
  Forall (fun s => List.map (get Field.url) s = List.map (get Field.url) prev)
         (states_with steps prev).
Proof.
  intros Hown. revert prev.
  induction Hown as [|[u r] steps Hr _ IH]; intros prev; cbn.
  - constructor.
  - cbn in Hr. constructor; [now apply replace_by_url_urls|].
    eapply Forall_impl; [apply IH|].
    intros s Hs. cbn in Hs. now rewrite Hs, replace_by_url_urls.
Qed.

(** Without duplicates, and with records that carry their own URL, the
    [k]-th update turns exactly the [k]-th pending record into its result. *)
Lemma states_with_nodup steps : forall done k,
  own_url steps ->
  NoDup (List.map fst steps) ->
  Forall (fun d => Forall (fun u => url_is u d = false) (List.map fst steps)) done ->
  k < length steps ->
  states_with steps (done ++ List.map pending_record (List.map fst steps)) !! k
    = Some (done ++ take (S k) (List.map snd steps)
                 ++ List.map pending_record (drop (S k) (List.map fst steps))).
Proof.
  induction steps as [|[u r] rest IH]; intros done k Hown Hnd Hdone Hk;
    [cbn in Hk; lia|].
  cbn [List.map fst snd] in *.
  apply Forall_cons in Hown as [Hr Hown]. cbn in Hr.
  apply NoDup_cons in Hnd as [Hu Hnd].
  assert (Hnext : replace_by_url u r
                    (done ++ pending_record u :: List.map pending_record (List.map fst rest))
                  = (done ++ [r]) ++ List.map pending_record (List.map fst rest)).
  { rewrite replace_by_url_app, <- app_assoc. f_equal.
    - apply replace_by_url_others.
      eapply Forall_impl; [exact Hdone|]. intros d Hd. cbn in Hd.
      now apply Forall_cons in Hd as [Hd _].
    - rewrite replace_by_url_cons, url_is_pending_record, String.eqb_refl.
      cbn [app]. f_equal. apply replace_by_url_others.
      apply Forall_forall. intros x Hx.
      apply list_elem_of_In, in_map_iff in Hx as (u' & <- & Hu').
      apply url_is_other with u'; [apply get_pending_record_url|].
      intros ->. apply Hu. now apply list_elem_of_In. }
  cbn [states_with]. rewrite Hnext.
  destruct k as [|k].
  - cbn. now rewrite <- app_assoc.
  - cbn [lookup list_lookup]. change (?l !! k) with (l !! k).
    rewrite IH; [now rewrite <- app_assoc| exact Hown | exact Hnd | | cbn in Hk; lia].
    apply Forall_app. split.
    + eapply Forall_impl; [exact Hdone|]. intros d Hd. cbn in Hd.
      now apply Forall_cons in Hd as [_ Hd].
    + constructor; [|constructor].
      apply Forall_forall. intros u' Hu'.
      apply url_is_other with u; [exact Hr|]. now intros ->.
Qed.

(** A record that none of the remaining URLs names stays where it is. *)
Lemma states_with_keeps steps : forall prev q x,
  prev !! q = Some x ->
  Forall (fun step => url_is (fst step) x = false) steps ->
  Forall (fun s => s !! q = Some x) (states_with steps prev).
Proof.
  induction steps as [|[u r] rest IH]; intros prev q x Hq Hx; cbn [states_with].
  - constructor.
  - apply Forall_cons in Hx as [Hu Hx]. cbn in Hu.
    assert (Hnext : replace_by_url u r prev !! q = Some x)
      by (rewrite (replace_by_url_lookup _ _ _ _ _ Hq); now rewrite Hu).
    constructor; [exact Hnext|]. now apply IH.
Qed.

Lemma last_Forall {A} (P : A -> Prop) (l : list A) (d : A) :
  l <> [] -> Forall P l -> P (List.last l d).
Proof.
  induction l as [|a l IH]; intros Hne HP; [congruence|].
  apply Forall_cons in HP as [Ha HP].
  destruct l as [|b l]; [exact Ha|].
  apply IH; [discriminate|exact HP].
Qed.

Lemma last_cons_cons {A} (a b : A) (l : list A) (d : A) :
  List.last (a :: b :: l) d = List.last (b :: l) d.
Proof. reflexivity. Qed.

(** The record of a URL that occurs once among the iterations is, at the end,
    the one its analysis returned. *)
Lemma states_with_settles before u r after : forall prev q x,
  prev !! q = Some x ->
  get Field.url x = JStr u ->
  get Field.url r = JStr u ->
  u ∉ List.map fst before ->
  u ∉ List.map fst after ->
  List.last (states_with (before ++ (u, r) :: after) prev) [] !! q = Some r.
Proof.
  induction before as [|[u0 r0] before IH]; intros prev q x Hq Hx Hr Hb Ha.
  - cbn [app states_with].
    apply (last_Forall (fun s => s !! q = Some r)); [discriminate|].
    assert (Hnext : replace_by_url u r prev !! q = Some r).
    { rewrite (replace_by_url_lookup _ _ _ _ _ Hq).
      now rewrite (proj2 (url_is_true u x) Hx). }
    constructor; [exact Hnext|].
    apply states_with_keeps; [exact Hnext|].
    apply Forall_forall. intros [u' r'] Hin. cbn.
    apply url_is_other with u; [exact Hr|].
    intros ->. apply Ha. apply list_elem_of_In, in_map_iff.
    exists (u', r'). split; [reflexivity|now apply list_elem_of_In].
  - cbn [List.map fst] in Hb. apply not_elem_of_cons in Hb as [Hne Hb].
    cbn [app states_with].
    destruct (states_with (before ++ (u, r) :: after) (replace_by_url u0 r0 prev))
      as [|s ss] eqn:Hs.
    { destruct before as [|[? ?] ?]; cbn in Hs; discriminate Hs. }
    rewrite last_cons_cons, <- Hs.
    apply IH with x; [|exact Hx|exact Hr|exact Hb|exact Ha].
    rewrite (replace_by_url_lookup _ _ _ _ _ Hq).
    now rewrite (url_is_other u0 u x Hx Hne).
Qed.

(** *** From the loop to its trace *)

Section RunFacts.

Variable engine : Engine.
Variable world : World.

Lemma steps_from_urls us : forall i,
  List.map fst (steps_from engine world i us) = us.
Proof. induction us as [|u us IH]; intros i; cbn; [|rewrite IH]; reflexivity. Qed.

Lemma steps_from_length us i : length (steps_from engine world i us) = length us.
Proof. now rewrite <- (steps_from_urls us i) at 2; rewrite length_map. Qed.

Lemma steps_from_lookup us : forall i j u,
  us !! j = Some u ->
  steps_from engine world i us !! j
    = Some (u, result_of engine (world (i + j)) u).
Proof.
  induction us as [|u0 us IH]; intros i j u Hj; [discriminate|].
  destruct j as [|j]; cbn in *.
  - injection Hj as ->. now rewrite Nat.add_0_r.
  - rewrite Nat.add_succ_r. exact (IH (S i) j u Hj).
Qed.

Lemma steps_from_split us : forall i j u,
  us !! j = Some u ->
  steps_from engine world i us
    = steps_from engine world i (take j us)
        ++ (u, result_of engine (world (i + j)) u)
        :: steps_from engine world (S (i + j)) (drop (S j) us).
Proof.
  induction us as [|u0 us IH]; intros i j u Hj; [discriminate|].
  destruct j as [|j]; cbn in *.
  - injection Hj as ->. now rewrite Nat.add_0_r.
  - rewrite (IH (S i) j u Hj). now rewrite Nat.add_succ_r.
Qed.

(** No analysis throws, so the loop runs through the whole list. *)
Lemma analyze_from_runs us : forall i prev,
  analyze_from engine world i us prev
    = (states_with (steps_from engine world i us) prev,
       List.map snd (steps_from engine world i us), None).
Proof.
  induction us as [|u us IH]; intros i prev; cbn; [reflexivity|].
  now rewrite analyzeUrl_result, IH.
Qed.

Lemma handleAnalyze_runs urls :
  urlList_of urls <> [] ->
  handleAnalyze engine world urls
    = {| published :=
           List.map pending_record (urlList_of urls)
             :: states_with (steps_from engine world 0 (urlList_of urls))
                  (List.map pending_record (urlList_of urls));
         newResults := List.map snd (steps_from engine world 0 (urlList_of urls));
         raised := None;
         isAnalyzing := Some false |}.
Proof.
  intros Hne. unfold handleAnalyze.
  destruct (urlList_of urls) as [|u us] eqn:Hus; [congruence|].
  now rewrite analyze_from_runs.
Qed.

(** A record returned under [response_lacks] keeps the literal's field. *)
Lemma result_of_url c url :
  response_lacks engine c url Field.url ->
  get Field.url (result_of engine c url) = JStr url.
Proof.
  intros Hl. unfold result_of.
  destruct (analyzeUrl_try_cases engine c url)
    as [(e & _ & ->) | (resp & data & Hs & Hp & ->)].
  - apply get_error_record_url.
  - unfold get. rewrite lookup_success_record.
    now rewrite (Hl resp data Hs Hp).
Qed.

Lemma result_of_status c url :
  response_lacks engine c url Field.status ->
  terminal (get Field.status (result_of engine c url)).
Proof.
  intros Hl. unfold result_of.
  destruct (analyzeUrl_try_cases engine c url)
    as [(e & _ & ->) | (resp & data & Hs & Hp & ->)].
  - right. apply get_error_record_status.
  - left. unfold get. rewrite lookup_success_record.
    now rewrite (Hl resp data Hs Hp).
Qed.

Lemma steps_from_own_url us : forall i,
  (forall j u, us !! j = Some u ->
     response_lacks engine (world (i + j)) u Field.url) ->
  own_url (steps_from engine world i us).
Proof.
  induction us as [|u us IH]; intros i H; cbn; constructor.
  - cbn. apply result_of_url. rewrite <- (Nat.add_0_r i). now apply H.
  - apply IH. intros j u' Hj. rewrite Nat.add_succ_comm. now apply H.
Qed.

End RunFacts.

(** *** The published states of a run *)

Section Published.

Variable engine : Engine.
Variable world : World.
Variable urls : string.

Lemma run_published :
  urlList_of urls <> [] ->
  published (handleAnalyze engine world urls)
    = List.map pending_record (urlList_of urls)
        :: states_with (steps_from engine world 0 (urlList_of urls))
                       (List.map pending_record (urlList_of urls)).
Proof. intros Hne. now rewrite handleAnalyze_runs. Qed.

Lemma run_newResults :
  newResults (handleAnalyze engine world urls)
    = List.map snd (steps_from engine world 0 (urlList_of urls)).
Proof.
  unfold handleAnalyze.
  destruct (urlList_of urls) as [|u l] eqn:Hus; [reflexivity|].
  now rewrite analyze_from_runs.
Qed.

Lemma run_raised : raised (handleAnalyze engine world urls) = None.
Proof.
  unfold handleAnalyze.
  destruct (urlList_of urls) as [|u l] eqn:Hus; [reflexivity|].
  now rewrite analyze_from_runs.
Qed.

Lemma run_newResults_length :
  length (newResults (handleAnalyze engine world urls))
    = length (urlList_of urls).
Proof. rewrite run_newResults, length_map. apply steps_from_length. Qed.

Lemma run_newResults_lookup j u :
  urlList_of urls !! j = Some u ->
  newResults (handleAnalyze engine world urls) !! j
    = Some (result_of engine (world j) u).
Proof.
  intros Hj. rewrite run_newResults.
  change (List.map snd ?l) with (snd <$> l).
  rewrite list_lookup_fmap.
  now rewrite (steps_from_lookup engine world _ 0 j u Hj).
Qed.

Lemma run_published_length :
  urlList_of urls <> [] ->
  length (published (handleAnalyze engine world urls))
    = S (length (urlList_of urls)).
Proof.
  intros Hne. rewrite (run_published Hne). cbn.
  now rewrite states_with_length, steps_from_length.
Qed.

Lemma run_published_lengths :
  Forall (fun s => length s = length (urlList_of urls))
         (published (handleAnalyze engine world urls)).
Proof.
  destruct (decide (urlList_of urls = [])) as [He|Hne].
  - unfold handleAnalyze. rewrite He. constructor.
  - rewrite (run_published Hne). constructor; [apply length_map|].
    eapply Forall_impl; [apply states_with_lengths|].
    intros s Hs. cbn in Hs. now rewrite Hs, length_map.
Qed.

Lemma run_published_urls :
  (forall i u, urlList_of urls !! i = Some u ->
     response_lacks engine (world i) u Field.url) ->
  Forall (fun s => List.map (get Field.url) s = List.map JStr (urlList_of urls))
         (published (handleAnalyze engine world urls)).
Proof.
  intros Hl.
  assert (Hseed : List.map (get Field.url)
                    (List.map pending_record (urlList_of urls))
                  = List.map JStr (urlList_of urls)).
  { rewrite List.map_map. apply List.map_ext. intros u.
    apply get_pending_record_url. }
  destruct (decide (urlList_of urls = [])) as [He|Hne].
  - unfold handleAnalyze. rewrite He. constructor.
  - rewrite (run_published Hne). constructor; [exact Hseed|].
    eapply Forall_impl; [apply states_with_urls|].
    + apply steps_from_own_url. exact Hl.
    + intros s Hs. cbn in Hs. now rewrite Hs.
Qed.

Lemma run_final_state_published :
  urlList_of urls <> [] ->
  In (final_state (handleAnalyze engine world urls))
     (published (handleAnalyze engine world urls)).
Proof.
  intros Hne. unfold final_state. rewrite (run_published Hne).
  generalize (states_with (steps_from engine world 0 (urlList_of urls))
                          (List.map pending_record (urlList_of urls))).
  generalize (List.map pending_record (urlList_of urls)).
  intros a l. revert a. induction l as [|b l IH]; intros a.
  - left; reflexivity.
  - right. rewrite last_cons_cons. apply IH.
Qed.

(** Without duplicates, and when no response names a URL of its own, the
    state after [k] updates holds the first [k] results followed by the
    pending records of the other URLs. *)
Lemma run_published_nodup k :
  urlList_of urls <> [] ->
  NoDup (urlList_of urls) ->
  (forall i u, urlList_of urls !! i = Some u ->
     response_lacks engine (world i) u Field.url) ->
  k <= length (urlList_of urls) ->
  published (handleAnalyze engine world urls) !! k
    = Some (take k (newResults (handleAnalyze engine world urls))
              ++ List.map pending_record (drop k (urlList_of urls))).
Proof.
  intros Hne Hnd Hl Hk. rewrite (run_published Hne), run_newResults.
  destruct k as [|k]; [reflexivity|].
  cbn [lookup list_lookup]. change (?l !! k) with (l !! k).
  pose proof (states_with_nodup
                (steps_from engine world 0 (urlList_of urls)) [] k) as H.
  rewrite steps_from_urls in H. cbn [app] in H. apply H.
  - apply steps_from_own_url. exact Hl.
  - exact Hnd.
  - constructor.
  - rewrite steps_from_length. lia.
Qed.

Lemma lookup_results_then_pending (rs : list Obj) k j :
  length rs = length (urlList_of urls) -> k <= length (urlList_of urls) ->
  (take k rs ++ List.map pending_record (drop k (urlList_of urls))) !! j
    = if decide (j < k) then rs !! j
      else pending_record <$> urlList_of urls !! j.
Proof.
  intros Hlen Hk.
  assert (Htk : length (take k rs) = k) by (rewrite length_take; lia).
  destruct (decide (j < k)) as [Hlt|Hge].
  - rewrite lookup_app_l by lia. now apply lookup_take_lt.
  - rewrite lookup_app_r by lia. rewrite Htk.
    change (List.map pending_record ?l) with (pending_record <$> l).
    rewrite list_lookup_fmap, lookup_drop. do 2 f_equal. lia.
Qed.

End Published.

(** *** The example collaborators *)

Lemma answering_lacks (t : option string) (url k : string) (data : JsVal) :
  Demo.parse (text_or_empty_object t) = Normal data ->
  own_props data !! k = None ->
  response_lacks Demo.engine (Demo.answering t) url k.
Proof.
  intros Hp Hk resp d (contents & _ & Hg) Hd.
  injection Hg as <-. change (Demo.parse (text_or_empty_object t) = Normal d) in Hd.
  rewrite Hp in Hd. injection Hd as <-. exact Hk.
Qed.

Lemma scoring_down_lacks (url k : string) :
  response_lacks Demo.engine Demo.scoring_down url k.
Proof.
  intros resp d (contents & _ & Hg) _. discriminate Hg.
Qed.

Lemma second_fails_lacks (url k : string) (i : nat) :
  own_props (JObj Demo.scores) !! k = None ->
  response_lacks Demo.engine (Demo.second_fails i) url k.
Proof.
  intros Hk. destruct i as [|[|i]];
    [apply (answering_lacks _ _ _ (JObj Demo.scores)); [reflexivity|exact Hk]
    |apply scoring_down_lacks
    |apply (answering_lacks _ _ _ (JObj Demo.scores)); [reflexivity|exact Hk]].
Qed.

Lemma two_lines_urlList :
  urlList_of (Demo.two_lines Demo.a Demo.b) = [Demo.a; Demo.b].
Proof. reflexivity. Qed.

Lemma two_lines_NoDup : NoDup (urlList_of (Demo.two_lines Demo.a Demo.b)).
Proof. apply (bool_decide_unpack _). vm_compute. exact I. Qed.

(** *** Seeding *)

(** C4.  For a text with at least one non-blank line, the first value of
    [results] a run publishes, before any analysis is started, is the list of
    the pending records of the URLs, in input order: it depends on the text
    alone, and each of its records carries its URL, the status pending, the
    five criteria false, the empty summary and no error. *)
Theorem handleAnalyze_seeds_pending
    (engine : Engine) (world : World) (urls : string) :
  urlList_of urls <> [] ->
  published (handleAnalyze engine world urls) !! 0
    = Some (List.map pending_record (urlList_of urls)) /\
  length (List.map pending_record (urlList_of urls)) = length (urlList_of urls) /\
  forall i url, urlList_of urls !! i = Some url ->
    exists r,
      List.map pending_record (urlList_of urls) !! i = Some r /\
      get Field.url r = JStr url /\
      get Field.status r = Status.pending /\
      Forall (fun k => get k r = JBool false) Field.criteria /\
      get Field.summary r = JStr EmptyString /\
      r !! Field.error = None.
Proof.
  intros Hne. split; [|split].
  - now rewrite run_published.
  - apply length_map.
  - intros i url Hi. exists (pending_record url). split.
    + change (List.map pending_record ?l) with (pending_record <$> l).
      now rewrite list_lookup_fmap, Hi.
    + repeat split; try reflexivity. repeat constructor.
Qed.

Lemma handleAnalyze_seeds_pending_witness :
  published (handleAnalyze Demo.engine Demo.second_fails
               (Demo.two_lines Demo.a Demo.b)) !! 0
    = Some [pending_record Demo.a; pending_record Demo.b].
Proof.
  apply (handleAnalyze_seeds_pending Demo.engine Demo.second_fails
           (Demo.two_lines Demo.a Demo.b)).
  vm_compute. discriminate.
Defined.

(** *** Length and order *)

(** C3, as the claim states it, fails: a scoring response with a member
    named url replaces the URL of the record, which then no longer carries
    the input line. *)
Lemma handleAnalyze_record_takes_response_url :
  urlList_of Demo.a = [Demo.a] /\
  Demo.a = "https://a.example" /\
  List.map (List.map (get Field.url))
    (published (handleAnalyze Demo.engine
                  (Demo.always (Demo.answering (Some Demo.text_other_url)))
                  Demo.a))
    = [[JStr "https://a.example"]; [JStr "https://z.example"]].
Proof. repeat split; reflexivity. Qed.

(** C3, amended.  A run over a non-empty URL list publishes one state at
    the seeding and one per URL, and completes; every published state, the
    final one among them, has the length of the URL list; and, provided no
    scoring response of the run carries a property named url, the record at
    each position of each state carries the input URL of that position. *)
Theorem handleAnalyze_length_and_order
    (engine : Engine) (world : World) (urls : string) :
  let us := urlList_of urls in
  let run := handleAnalyze engine world urls in
  us <> [] ->
  length (published run) = S (length us) /\
  raised run = None /\
  In (final_state run) (published run) /\
  Forall (fun s => length s = length us) (published run) /\
  ((forall i u, us !! i = Some u ->
      response_lacks engine (world i) u Field.url) ->
   Forall (fun s => List.map (get Field.url) s = List.map JStr us)
          (published run)).
Proof.
  intros us run Hne.
  split; [now apply run_published_length|].
  split; [apply run_raised|].
  split; [now apply run_final_state_published|].
  split; [apply run_published_lengths|apply run_published_urls].
Qed.

Lemma handleAnalyze_length_and_order_witness :
  let run := handleAnalyze Demo.engine Demo.second_fails
               (Demo.two_lines Demo.a Demo.b) in
  length (published run) = 3 /\
  raised run = None /\
  In (final_state run) (published run) /\
  Forall (fun s => length s = 2) (published run) /\
  Forall (fun s => List.map (get Field.url) s = [JStr Demo.a; JStr Demo.b])
         (published run).
Proof.
  destruct (handleAnalyze_length_and_order Demo.engine Demo.second_fails
              (Demo.two_lines Demo.a Demo.b))
    as (Hlen & Hraised & Hfinal & Hlens & Hurls).
  - vm_compute. discriminate.
  - cbv zeta.
    split; [exact Hlen|]. split; [exact Hraised|]. split; [exact Hfinal|].
    split; [exact Hlens|].
    apply Hurls. intros i u _. now apply second_fails_lacks.
Defined.

(** *** Status transitions *)

(** C1, as the claim states it, fails: with the same URL on two lines, the
    first completion replaces both records, and the second replaces both
    again.  When the first analysis fails and the second succeeds, the
    record at position 0 goes from pending to error and then to success.
    And a scoring response with a status member of its own decides the
    status of the record: with the member pending, the record of a
    completed analysis is still pending. *)
Lemma handleAnalyze_duplicate_flips_status :
  (urlList_of (Demo.two_lines Demo.a Demo.a) = [Demo.a; Demo.a] /\
   List.map (fun s => get Field.status <$> s !! 0)
     (published (handleAnalyze Demo.engine Demo.fail_then_succeed
                   (Demo.two_lines Demo.a Demo.a)))
     = [Some Status.pending; Some Status.error; Some Status.success]) /\
  (urlList_of Demo.a = [Demo.a] /\
   JSON_parse Demo.engine Demo.text_still_pending
     = Normal (JObj {[ Field.status := Status.pending ]}) /\
   List.map (fun s => get Field.status <$> s !! 0)
     (published (handleAnalyze Demo.engine
                   (Demo.always (Demo.answering (Some Demo.text_still_pending)))
                   Demo.a))
     = [Some Status.pending; Some Status.pending]).
Proof. repeat split; reflexivity. Qed.

(** C1, amended.  In a run over a URL list without duplicates in which no
    scoring response carries a property named url or status, the record at
    each position changes status exactly once: it is pending in the states
    published up to the completion of the analyses before its own, and has
    one and the same terminal status, success or error, in every state
    from the completion of its own analysis on. *)
Theorem handleAnalyze_status_changes_once
    (engine : Engine) (world : World) (urls : string) :
  let us := urlList_of urls in
  let run := handleAnalyze engine world urls in
  NoDup us ->
  (forall i u, us !! i = Some u ->
     response_lacks engine (world i) u Field.url) ->
  (forall i u, us !! i = Some u ->
     response_lacks engine (world i) u Field.status) ->
  forall i, i < length us ->
    length (published run) = S (length us) /\
    exists t, terminal t /\ t <> Status.pending /\
      forall k, k <= length us ->
        exists s r,
          published run !! k = Some s /\ s !! i = Some r /\
          get Field.status r = if decide (k <= i) then Status.pending else t.
Proof.
  intros us run Hnd Hurl Hstatus i Hi. subst us run.
  assert (Hne : urlList_of urls <> []) by (intros He; rewrite He in Hi; cbn in Hi; lia).
  split; [now apply run_published_length|].
  destruct (lookup_lt_is_Some_2 (urlList_of urls) i Hi) as [u Hu].
  exists (get Field.status (result_of engine (world i) u)).
  assert (Ht : terminal (get Field.status (result_of engine (world i) u)))
    by (apply result_of_status, Hstatus, Hu).
  split; [exact Ht|].
  split; [destruct Ht as [-> | ->]; discriminate|].
  intros k Hk.
  pose proof (run_published_nodup engine world urls k Hne Hnd Hurl Hk) as Hs.
  pose proof (lookup_results_then_pending urls
                (newResults (handleAnalyze engine world urls)) k i
                (run_newResults_length engine world urls) Hk) as Hr.
  destruct (decide (i < k)) as [Hlt|Hge].
  - rewrite (run_newResults_lookup engine world urls i u Hu) in Hr.
    eexists _, _. split; [exact Hs|]. split; [exact Hr|].
    destruct (decide (k <= i)); [lia|reflexivity].
  - rewrite Hu in Hr.
    eexists _, _. split; [exact Hs|]. split; [exact Hr|].
    destruct (decide (k <= i)); [reflexivity|lia].
Qed.

Lemma handleAnalyze_status_changes_once_witness :
  let run := handleAnalyze Demo.engine Demo.second_fails
               (Demo.two_lines Demo.a Demo.b) in
  length (published run) = 3 /\
  exists t, terminal t /\ t <> Status.pending /\
    forall k, k <= 2 ->
      exists s r,
        published run !! k = Some s /\ s !! 1 = Some r /\
        get Field.status r = if decide (k <= 1) then Status.pending else t.
Proof.
  apply (handleAnalyze_status_changes_once Demo.engine Demo.second_fails
           (Demo.two_lines Demo.a Demo.b) two_lines_NoDup).
  - intros i u _. now apply second_fails_lacks.
  - intros i u _. now apply second_fails_lacks.
  - vm_compute. lia.
Defined.

(** *** One record per line *)

(** C2, as the claim states it, fails: with the same URL on two lines, the
    completion of the analysis at position 0 also replaces the record at
    position 1, whose own analysis has not started.  And a scoring response
    with a url member of its own rewrites the [url] field of the record. *)
Lemma handleAnalyze_duplicate_updates_both :
  (urlList_of (Demo.two_lines Demo.a Demo.a) = [Demo.a; Demo.a] /\
   exists s0 s1,
     published (handleAnalyze Demo.engine Demo.fail_then_succeed
                  (Demo.two_lines Demo.a Demo.a)) !! 0 = Some s0 /\
     published (handleAnalyze Demo.engine Demo.fail_then_succeed
                  (Demo.two_lines Demo.a Demo.a)) !! 1 = Some s1 /\
     s0 !! 1 = Some (pending_record Demo.a) /\
     s1 !! 1 = Some (error_record Demo.a (mkError "Failed to fetch"))) /\
  (exists s0 s1 r0 r1,
     published (handleAnalyze Demo.engine
                  (Demo.always (Demo.answering (Some Demo.text_other_url)))
                  Demo.a) = [s0; s1] /\
     s0 !! 0 = Some r0 /\ s1 !! 0 = Some r1 /\
     get Field.url r0 = JStr "https://a.example" /\
     get Field.url r1 = JStr "https://z.example").
Proof.
  split.
  - split; [reflexivity|]. eexists _, _. repeat split; reflexivity.
  - eexists _, _, _, _. repeat split; reflexivity.
Qed.

(** C2, amended.  Every published state of every run holds exactly one
    record per trimmed non-empty input line.  When no scoring response
    carries a property named url, no update rewrites a [url] field: the
    record at each position keeps the URL of its line; and when, besides,
    the URL list has no duplicates, the update that follows the [k]-th
    analysis leaves the record at every position other than [k] as it was. *)
Theorem handleAnalyze_updates_own_position
    (engine : Engine) (world : World) (urls : string) :
  let us := urlList_of urls in
  let run := handleAnalyze engine world urls in
  Forall (fun s => length s = length us) (published run) /\
  ((forall i u, us !! i = Some u ->
      response_lacks engine (world i) u Field.url) ->
   Forall (fun s => List.map (get Field.url) s = List.map JStr us)
          (published run) /\
   (NoDup us ->
    forall k, k < length us ->
      exists s s',
        published run !! k = Some s /\ published run !! S k = Some s' /\
        forall j, j <> k -> s' !! j = s !! j)).
Proof.
  intros us run. subst us run.
  split; [apply run_published_lengths|].
  intros Hurl.
  split; [now apply run_published_urls|].
  intros Hnd k Hk.
  assert (Hne : urlList_of urls <> [])
    by (intros He; rewrite He in Hk; cbn in Hk; lia).
  eexists _, _.
  split; [apply (run_published_nodup engine world urls k Hne Hnd Hurl); lia|].
  split; [apply (run_published_nodup engine world urls (S k) Hne Hnd Hurl); lia|].
  intros j Hj.
  rewrite !lookup_results_then_pending
    by (try apply run_newResults_length; lia).
  destruct (decide (j < S k)), (decide (j < k)); try reflexivity; lia.
Qed.

(** The length holds for a run with duplicate lines and a response that
    names a URL of its own; the rest for a run with neither. *)
Lemma handleAnalyze_updates_own_position_witness :
  Forall (fun s => length s = 2)
         (published (handleAnalyze Demo.engine
                       (Demo.always (Demo.answering (Some Demo.text_other_url)))
                       (Demo.two_lines Demo.a Demo.a))) /\
  (let run := handleAnalyze Demo.engine Demo.second_fails
                (Demo.two_lines Demo.a Demo.b) in
   Forall (fun s => length s = 2) (published run) /\
   Forall (fun s => List.map (get Field.url) s = [JStr Demo.a; JStr Demo.b])
          (published run) /\
   forall k, k < 2 ->
     exists s s',
       published run !! k = Some s /\ published run !! S k = Some s' /\
       forall j, j <> k -> s' !! j = s !! j).
Proof.
  split.
  - apply (handleAnalyze_updates_own_position Demo.engine
             (Demo.always (Demo.answering (Some Demo.text_other_url)))
             (Demo.two_lines Demo.a Demo.a)).
  - destruct (handleAnalyze_updates_own_position Demo.engine Demo.second_fails
                (Demo.two_lines Demo.a Demo.b)) as [Hlen Hrest].
    destruct Hrest as [Hurls Hown];
      [intros i u _; now apply second_fails_lacks|].
    cbv zeta. split; [exact Hlen|]. split; [exact Hurls|].
    exact (Hown two_lines_NoDup).
Defined.

(** *** Failures *)

(** C5, as the claim states it, fails: with the same URL on two lines, the
    analysis at position 0 fails and the one at position 1 succeeds, and the
    second completion replaces the record at position 0 as well, which ends
    with the status success. *)
Lemma handleAnalyze_duplicate_overwrites_failure :
  urlList_of (Demo.two_lines Demo.a Demo.a) = [Demo.a; Demo.a] /\
  fails Demo.engine (Demo.fail_then_succeed 0) Demo.a (mkError "Failed to fetch") /\
  get Field.status
    <$> final_state (handleAnalyze Demo.engine Demo.fail_then_succeed
                       (Demo.two_lines Demo.a Demo.a)) !! 0
    = Some Status.success.
Proof.
  split; [reflexivity|]. split; [|reflexivity].
  left. now constructor.
Qed.

Lemma not_elem_of_take_unique (us : list string) (i : nat) (u : string) :
  (forall j, us !! j = Some u -> j = i) -> u ∉ take i us.
Proof.
  intros Huniq Hin. apply list_elem_of_lookup in Hin as [j Hj].
  apply lookup_take_Some in Hj as [Hj Hlt].
  specialize (Huniq j Hj). lia.
Qed.

Lemma not_elem_of_drop_unique (us : list string) (i : nat) (u : string) :
  (forall j, us !! j = Some u -> j = i) -> u ∉ drop (S i) us.
Proof.
  intros Huniq Hin. apply list_elem_of_lookup in Hin as [j Hj].
  rewrite lookup_drop in Hj. specialize (Huniq _ Hj). lia.
Qed.

(** The record at the position of a URL that occurs once is, at the end of
    the run, the one its analysis returned, provided that one carries the
    URL. *)
Lemma run_final_state_unique engine world urls i u :
  urlList_of urls !! i = Some u ->
  (forall j, urlList_of urls !! j = Some u -> j = i) ->
  get Field.url (result_of engine (world i) u) = JStr u ->
  final_state (handleAnalyze engine world urls) !! i
    = Some (result_of engine (world i) u).
Proof.
  intros Hi Huniq Hr.
  assert (Hne : urlList_of urls <> []) by (intros He; now rewrite He in Hi).
  unfold final_state. rewrite (run_published engine world urls Hne).
  rewrite (steps_from_split engine world _ 0 i u Hi). cbn [Nat.add].
  set (seeded := List.map pending_record (urlList_of urls)).
  destruct (states_with _ seeded) as [|s ss] eqn:Hs.
  { destruct (steps_from engine world 0 (take i (urlList_of urls)))
      as [|[? ?] ?]; cbn in Hs; discriminate Hs. }
  rewrite last_cons_cons, <- Hs.
  apply states_with_settles with (pending_record u).
  - subst seeded. change (List.map pending_record ?l) with (pending_record <$> l).
    now rewrite list_lookup_fmap, Hi.
  - apply get_pending_record_url.
  - exact Hr.
  - rewrite steps_from_urls. now apply not_elem_of_take_unique.
  - rewrite steps_from_urls. now apply not_elem_of_drop_unique.
Qed.

(** C5, amended.  The loop analyses every position of the URL list,
    whatever failed before: no exception leaves it, and [newResults] holds
    the record of each analysis, in order.  When the analysis at position
    [i] fails with the error [e], retrieval or scoring, its record is the
    error record with the message of [e], a message that after a non-OK
    answer of the proxy is never empty; and when the URL of position [i]
    occurs nowhere else in the list, the record at position [i] ends with
    the status error and that message. *)
Theorem handleAnalyze_failure_is_isolated
    (engine : Engine) (world : World) (urls : string) :
  let us := urlList_of urls in
  let run := handleAnalyze engine world urls in
  (raised run = None /\
   length (newResults run) = length us /\
   forall j u, us !! j = Some u ->
     exists r, analyzeUrl engine (world j) u = Normal r /\
               newResults run !! j = Some r) /\
  (forall i u e, us !! i = Some u -> fails engine (world i) u e ->
     newResults run !! i = Some (error_record u e) /\
     ((forall j, us !! j = Some u -> j = i) ->
      exists r, final_state run !! i = Some r /\
        get Field.status r = Status.error /\
        get Field.error r = JStr (message e))) /\
  (forall i u fr, us !! i = Some u ->
     fetch (world i) u = Normal fr -> ok fr = false ->
     exists e, fails engine (world i) u e /\ message e <> EmptyString).
Proof.
  intros us run. subst us run. split; [|split].
  - split; [apply run_raised|]. split; [apply run_newResults_length|].
    intros j u Hj. exists (result_of engine (world j) u).
    split; [apply analyzeUrl_result|now apply run_newResults_lookup].
  - intros i u e Hi Hf.
    assert (Hres : result_of engine (world i) u = error_record u e)
      by (unfold result_of; now rewrite (fails_throws _ _ _ e Hf)).
    split.
    + rewrite (run_newResults_lookup engine world urls i u Hi). now rewrite Hres.
    + intros Huniq. exists (error_record u e).
      split; [|split; reflexivity].
      rewrite <- Hres. apply run_final_state_unique; [exact Hi|exact Huniq|].
      rewrite Hres. apply get_error_record_url.
  - intros i u fr Hi Hfetch Hok. eexists. split.
    + left. now apply (response_not_ok _ _ _ fr).
    + discriminate.
Qed.

Lemma handleAnalyze_failure_is_isolated_witness :
  exists r,
    final_state (handleAnalyze Demo.engine Demo.second_fails
                   (Demo.two_lines Demo.a Demo.b)) !! 1 = Some r /\
    get Field.status r = Status.error /\
    get Field.error r = JStr "Service unavailable".
Proof.
  destruct (handleAnalyze_failure_is_isolated Demo.engine Demo.second_fails
              (Demo.two_lines Demo.a Demo.b)) as (_ & Hfails & _).
  destruct (Hfails 1 Demo.b (mkError "Service unavailable")) as [_ Hfinal].
  - reflexivity.
  - apply scoring_down_fails.
  - apply Hfinal.
    intros [|[|j]] Hj; [discriminate Hj|reflexivity|discriminate Hj].
Defined.

(** ** The spreadsheet import *)

Lemma prefix_app_l (p q s : string) :
  String.prefix (p +:+ q) s = true -> String.prefix p s = true.
Proof.
  revert s. induction p as [|a p IH]; intros s H; [now destruct s|].
  change (String a p +:+ q) with (String a (p +:+ q)) in H.
  destruct s as [|b s]; [discriminate H|].
  cbn in *. destruct (ascii_dec a b); [now apply IH|discriminate H].
Qed.

Lemma kept_iff (v : JsVal) :
  Intake.kept v = true <-> exists s, v = JStr s /\ Str.startsWith "http" s = true.
Proof.
  split.
  - destruct v; try discriminate. intros H. now eexists.
  - now intros (s & -> & H).
Qed.

Lemma kept_texts (l : list JsVal) :
  List.map JStr (List.map Intake.text_of (List.filter Intake.kept l))
    = List.filter Intake.kept l.
Proof.
  induction l as [|v l IH]; [reflexivity|].
  cbn [List.filter]. destruct (Intake.kept v) eqn:Hv; [|exact IH].
  apply kept_iff in Hv as (s & -> & _). cbn. now rewrite IH.
Qed.

Lemma row_URL_cell (row : Row) (v : JsVal) :
  NoDup (List.map fst row) -> In ("URL", v) row -> Intake.row_URL row = v.
Proof.
  unfold Intake.row_URL.
  induction row as [|[k w] row IH]; intros Hnd Hin; [destruct Hin|].
  cbn [List.map fst] in Hnd. apply NoDup_cons in Hnd as [Hk Hnd].
  cbn [List.find fst]. destruct (String.eqb_spec k "URL") as [->|Hne].
  - destruct Hin as [Heq|Hin]; [now injection Heq as ->|].
    exfalso. apply Hk. apply list_elem_of_In, in_map_iff. now exists ("URL", v).
  - destruct Hin as [Heq|Hin]; [congruence|]. now apply IH.
Qed.

Lemma row_URL_missing (row : Row) :
  ~ In "URL" (List.map fst row) -> Intake.row_URL row = JUndefined.
Proof.
  unfold Intake.row_URL.
  induction row as [|[k w] row IH]; intros Hno; [reflexivity|].
  cbn [List.find fst]. destruct (String.eqb_spec k "URL") as [->|Hne].
  - exfalso. apply Hno. now left.
  - apply IH. intros Hin. apply Hno. now right.
Qed.

(** C9, as the claim states it, fails: the filter tests no more than the
    first four characters, so a cell that begins with them and is no
    absolute HTTP(S) URL is appended to the text, be it the cell of the
    column named URL or the first cell of a row without such a column. *)
Lemma onDrop_keeps_non_url :
  looks_like_absolute_http_url (JStr "httpd.conf") = false /\
  Intake.onDrop [[("URL", JStr "httpd.conf")]] "https://a.example"
    = "https://a.example" +:+ Str.newline +:+ "httpd.conf" /\
  looks_like_absolute_http_url (JStr "http header") = false /\
  Intake.onDrop [[("Note", JStr "http header"); ("Title", JStr "Golf")]]
    "https://a.example"
    = "https://a.example" +:+ Str.newline +:+ "http header".
Proof. repeat split; reflexivity. Qed.

(** C9, amended.  From each row the import takes the cell of the column
    named URL when that cell is truthy; when the row has no such column, or
    when its cell is falsy (empty, [null], zero), it takes the value of the
    row's first property, and [undefined] from a row without properties.
    Of the values taken it keeps, in row order, exactly the strings that
    start with the four characters http, every value that looks like an
    absolute HTTP(S) URL among them, and drops the values of another type
    and the other strings; the kept strings, joined by line feeds, become
    the text when it was empty and are appended to it after a line feed
    otherwise. *)
Theorem onDrop_appends_http_prefixed (jsonData : list Row) (prev : string) :
  (forall row v,
     NoDup (List.map fst row) -> In ("URL", v) row -> truthy v = true ->
     Intake.candidate row = v) /\
  (forall k v rest,
     ~ In "URL" (List.map fst ((k, v) :: rest)) ->
     Intake.candidate ((k, v) :: rest) = v) /\
  (forall k v rest u,
     NoDup (List.map fst ((k, v) :: rest)) ->
     In ("URL", u) ((k, v) :: rest) -> truthy u = false ->
     Intake.candidate ((k, v) :: rest) = v) /\
  Intake.candidate [] = JUndefined /\
  (exists kept : list string,
     List.map JStr kept
       = List.filter Intake.kept (List.map Intake.candidate jsonData) /\
     Forall (fun s => Str.startsWith "http" s = true) kept /\
     Intake.onDrop jsonData prev
       = if Str.is_empty prev then Str.join Str.newline kept
         else prev +:+ Str.newline +:+ Str.join Str.newline kept) /\
  (forall v,
     Intake.kept v = true <->
     exists s, v = JStr s /\ Str.startsWith "http" s = true) /\
  (forall v, looks_like_absolute_http_url v = true -> Intake.kept v = true).
Proof.
  split; [|split; [|split; [|split; [|split; [|split]]]]].
  - intros row v Hnd Hin Hv. unfold Intake.candidate, js_or.
    now rewrite (row_URL_cell row v Hnd Hin), Hv.
  - intros k v rest Hno. unfold Intake.candidate, js_or.
    now rewrite (row_URL_missing _ Hno).
  - intros k v rest u Hnd Hin Hu. unfold Intake.candidate, js_or.
    now rewrite (row_URL_cell _ u Hnd Hin), Hu.
  - reflexivity.
  - exists (List.map Intake.text_of
              (List.filter Intake.kept (List.map Intake.candidate jsonData))).
    split; [apply kept_texts|]. split; [|reflexivity].
    induction (List.map Intake.candidate jsonData) as [|v l IH]; [constructor|].
    cbn [List.filter]. destruct (Intake.kept v) eqn:Hv; [|exact IH].
    apply kept_iff in Hv as (s & -> & Hs). now constructor.
  - apply kept_iff.
  - intros [| | | |s| |] H; try discriminate H. cbn in *.
    apply orb_true_iff in H as [H|H].
    + now apply (prefix_app_l "http" "://").
    + now apply (prefix_app_l "http" "s://").
Qed.

(** A sheet of five rows, dropped on a text of one line: a row with a
    column named URL after another column; a row without such a column; a
    row whose URL cell is empty; a row whose first cell is a number; a row
    whose first cell does not start with http.  The first three give a
    line each, in row order. *)
Lemma onDrop_appends_http_prefixed_witness :
  Intake.candidate [("Title", JStr "Golf"); ("URL", JStr "https://a.example")]
    = JStr "https://a.example" /\
  Intake.candidate [("__EMPTY", JStr "https://c.example"); ("Title", JStr "Golf")]
    = JStr "https://c.example" /\
  Intake.candidate [("Link", JStr "https://d.example"); ("URL", JStr EmptyString)]
    = JStr "https://d.example" /\
  Intake.onDrop
    [[("Title", JStr "Golf"); ("URL", JStr "https://a.example")];
     [("__EMPTY", JStr "https://c.example"); ("Title", JStr "Golf")];
     [("Link", JStr "https://d.example"); ("URL", JStr EmptyString)];
     [("Rank", JNull); ("Title", JStr "https://e.example")];
     [("Site", JStr "ftp://f.example")]]
    "https://z.example"
  = "https://z.example" +:+ Str.newline +:+ "https://a.example"
      +:+ Str.newline +:+ "https://c.example"
      +:+ Str.newline +:+ "https://d.example".
Proof.
  split; [|split; [|split]].
  - apply (proj1 (onDrop_appends_http_prefixed [] EmptyString)).
    + apply (bool_decide_unpack _). vm_compute. exact I.
    + right. now left.
    + reflexivity.
  - apply (proj1 (proj2 (onDrop_appends_http_prefixed [] EmptyString))).
    intros [H|[H|[]]]; discriminate H.
  - apply (proj1 (proj2 (proj2 (onDrop_appends_http_prefixed [] EmptyString)))
             _ _ _ (JStr EmptyString)).
    + apply (bool_decide_unpack _). vm_compute. exact I.
    + right. now left.
    + reflexivity.
  - destruct (onDrop_appends_http_prefixed
                [[("Title", JStr "Golf"); ("URL", JStr "https://a.example")];
                 [("__EMPTY", JStr "https://c.example"); ("Title", JStr "Golf")];
                 [("Link", JStr "https://d.example"); ("URL", JStr EmptyString)];
                 [("Rank", JNull); ("Title", JStr "https://e.example")];
                 [("Site", JStr "ftp://f.example")]]
                "https://z.example")
      as (_ & _ & _ & _ & (kept & Hk & _ & Ho) & _).
    rewrite Ho. vm_compute in Hk.
    destruct kept as [|x [|y [|z [|w kept]]]]; try discriminate Hk.
    injection Hk as -> -> ->. reflexivity.
Defined.

(** The specification's scenario: a sheet whose first column has no name
    and holds https://c.example in every data row. *)
Example onDrop_unnamed_first_column :
  Intake.onDrop
    [[("__EMPTY", JStr "https://c.example"); ("Title", JStr "Golf")];
     [("__EMPTY", JStr "https://c.example"); ("Title", JStr "Polo")]]
    "https://a.example"
  = "https://a.example" +:+ Str.newline +:+ "https://c.example"
      +:+ Str.newline +:+ "https://c.example".
Proof. reflexivity. Qed.

(** ** The export *)

(** C10, as the claim states it, fails: a scoring response with a member
    named error that is no string leaves that value in the record, and the
    export writes it to the Error column as it is. *)
Lemma exportToExcel_error_not_a_string :
  JSON_parse Demo.engine Demo.text_error_flag
    = Normal (JObj {[ Field.error := JBool true ]}) /\
  List.map col_Error
    (Sheet.exportToExcel
       (final_state
          (handleAnalyze Demo.engine
             (Demo.always (Demo.answering (Some Demo.text_error_flag)))
             Demo.a)))
    = [JBool true] /\
  is_string (JBool true) = false.
Proof. repeat split; reflexivity. Qed.

(** C10, amended.  The export maps the records of the result list to rows
    one for one and in order, whatever their status; a record as seeded,
    still pending, gives the status pending, No in the five criteria
    columns, the empty summary and the empty Error cell; the Error cell is
    the record's error when that is truthy and the empty string otherwise,
    so it is the empty string whenever the record has no error, and a
    string for every record that conforms to the interface AnalysisResult. *)
Theorem exportToExcel_rows (results : list Obj) :
  length (Sheet.exportToExcel results) = length results /\
  (forall i r, results !! i = Some r ->
     Sheet.exportToExcel results !! i = Some (Sheet.row_of r)) /\
  (forall url,
     Sheet.row_of (pending_record url)
       = {| col_URL := JStr url;
            col_Status := Status.pending;
            col_Missing_ToC := "No";
            col_Deep_Linkable_Anchors := "No";
            col_Natural_Language_Headings := "No";
            col_High_Info_Density := "No";
            col_Semantic_HTML := "No";
            col_Summary := JStr EmptyString;
            col_Error := JStr EmptyString |}) /\
  (forall r,
     col_Error (Sheet.row_of r)
       = if truthy (get Field.error r) then get Field.error r
         else JStr EmptyString) /\
  (forall r, r !! Field.error = None ->
     col_Error (Sheet.row_of r) = JStr EmptyString) /\
  (forall r, conforms r -> is_string (col_Error (Sheet.row_of r)) = true).
Proof.
  split; [apply length_map|].
  split.
  { intros i r Hi. unfold Sheet.exportToExcel.
    change (List.map Sheet.row_of results) with (Sheet.row_of <$> results).
    now rewrite list_lookup_fmap, Hi. }
  split; [reflexivity|]. split; [reflexivity|]. split.
  - intros r Hr. cbn. unfold js_or, get. now rewrite Hr.
  - intros r [_ _ _ _ [Hr|Hr]]; cbn; unfold js_or, get in *.
    + now rewrite Hr.
    + destruct (default JUndefined (r !! Field.error)); try discriminate Hr.
      now destruct (truthy _).
Qed.

(** The rows of the specification's second scenario, exported at the end of
    the run and while the second record is still pending. *)
Example exportToExcel_mid_run :
  let run := handleAnalyze Demo.engine Demo.second_fails
               (Demo.two_lines Demo.a Demo.b) in
  List.map (fun s => List.map (fun row => (col_Status row, col_Error row))
                       (Sheet.exportToExcel s))
           (published run)
    = [ [(Status.pending, JStr EmptyString); (Status.pending, JStr EmptyString)];
        [(Status.success, JStr EmptyString); (Status.pending, JStr EmptyString)];
        [(Status.success, JStr EmptyString);
         (Status.error, JStr "Service unavailable")] ].
Proof. reflexivity. Qed.

(** ** The scenarios of the specification *)

(** Lines are trimmed of blanks, tabs and carriage returns, and blank lines
    are dropped. *)
Example urlList_of_trims :
  urlList_of ("  https://a.example " +:+ String "013"%char Str.newline
                +:+ Str.newline
                +:+ String "009"%char "https://b.example")
    = ["https://a.example"; "https://b.example"].
Proof. reflexivity. Qed.

(** A text of blank lines starts no run: nothing is published and
    [isAnalyzing] is not touched. *)
Lemma handleAnalyze_blank (engine : Engine) (world : World) (urls : string) :
  urlList_of urls = [] ->
  handleAnalyze engine world urls
    = {| published := []; newResults := []; raised := None;
         isAnalyzing := None |}.
Proof. intros He. unfold handleAnalyze. now rewrite He. Qed.

Example handleAnalyze_blank_demo :
  published (handleAnalyze Demo.engine Demo.second_fails
               ("   " +:+ Str.newline +:+ Str.newline)) = [].
Proof. reflexivity. Qed.

(** Two URLs, both retrieved and both scored with the six fields: both
    records reach the status success with those fields. *)
Example both_succeed :
  let run := handleAnalyze Demo.engine
               (Demo.always (Demo.answering (Some Demo.text_scores)))
               (Demo.two_lines Demo.a Demo.b) in
  final_state run
    = [success_record Demo.a (JObj Demo.scores);
       success_record Demo.b (JObj Demo.scores)] /\
  List.map (fun k => get k (success_record Demo.a (JObj Demo.scores)))
           (Field.url :: Field.status :: Field.expected)
    = [JStr Demo.a; Status.success; JBool true; JBool false; JBool true;
       JBool false; JBool true; JStr "ok"] /\
  isAnalyzing run = Some false.
Proof. repeat split; reflexivity. Qed.

(** The scoring of the second URL only fails: the first record is a
    success, the second the error record, and each state in between is
    published. *)
Example second_fails_only :
  published (handleAnalyze Demo.engine Demo.second_fails
               (Demo.two_lines Demo.a Demo.b))
    = [ [pending_record Demo.a; pending_record Demo.b];
        [success_record Demo.a (JObj Demo.scores); pending_record Demo.b];
        [success_record Demo.a (JObj Demo.scores);
         error_record Demo.b (mkError "Service unavailable")] ].
Proof. reflexivity. Qed.

(** * Further properties of the code *)

(** ** Lines of the text area *)

Lemma LF_is_white_space : Str.is_white_space Str.LF = true.
Proof. reflexivity. Qed.

Lemma all_chars_app p (a b : string) :
  all_chars p (a +:+ b) = all_chars p a && all_chars p b.
Proof.
  induction a as [|c a IH]; [reflexivity|].
  change (String c a +:+ b) with (String c (a +:+ b)).
  cbn [all_chars]. now rewrite IH, andb_assoc.
Qed.

Lemma trimStart_empty_iff s : Str.trimStart s = EmptyString <-> blank s = true.
Proof.
  unfold blank. induction s as [|c s IH]; [easy|].
  cbn. destruct (Str.is_white_space c); cbn; [exact IH|easy].
Qed.

Lemma trimEnd_empty_iff s : Str.trimEnd s = EmptyString <-> blank s = true.
Proof.
  unfold blank. induction s as [|c s IH]; [easy|].
  cbn. destruct (Str.is_white_space c); cbn.
  - destruct (Str.trimEnd s) eqn:He; cbn.
    + split; [intros _; now apply IH|reflexivity].
    + split; [discriminate|]. intros H. apply IH in H. discriminate H.
  - easy.
Qed.

Lemma blank_trimStart s : blank (Str.trimStart s) = blank s.
Proof.
  unfold blank. induction s as [|c s IH]; [reflexivity|].
  cbn. destruct (Str.is_white_space c) eqn:Hc; cbn; [exact IH|now rewrite Hc].
Qed.

(** [trim] yields the empty string exactly on blank strings. *)
Lemma trim_empty_iff s : Str.trim s = EmptyString <-> blank s = true.
Proof. unfold Str.trim. now rewrite trimEnd_empty_iff, blank_trimStart. Qed.

Lemma trimEnd_idempotent s : Str.trimEnd (Str.trimEnd s) = Str.trimEnd s.
Proof.
  induction s as [|c s IH]; [reflexivity|].
  cbn. destruct (Str.is_white_space c && Str.is_empty (Str.trimEnd s)) eqn:H;
    [reflexivity|].
  cbn. rewrite IH. now rewrite H.
Qed.

Lemma trimStart_trimEnd_trimStart s :
  Str.trimStart (Str.trimEnd (Str.trimStart s)) = Str.trimEnd (Str.trimStart s).
Proof.
  induction s as [|c s IH]; [reflexivity|].
  cbn [Str.trimStart]. destruct (Str.is_white_space c) eqn:Hc; [exact IH|].
  cbn. rewrite Hc. cbn. now rewrite Hc.
Qed.

Lemma trim_idempotent s : Str.trim (Str.trim s) = Str.trim s.
Proof.
  unfold Str.trim. now rewrite trimStart_trimEnd_trimStart, trimEnd_idempotent.
Qed.

Lemma all_chars_trimStart p s :
  all_chars p s = true -> all_chars p (Str.trimStart s) = true.
Proof.
  induction s as [|c s IH]; [easy|].
  cbn. intros H. apply andb_true_iff in H as [Hc Hs].
  destruct (Str.is_white_space c); [now apply IH|]. cbn. now rewrite Hc, Hs.
Qed.

Lemma all_chars_trimEnd p s :
  all_chars p s = true -> all_chars p (Str.trimEnd s) = true.
Proof.
  induction s as [|c s IH]; [easy|].
  cbn. intros H. apply andb_true_iff in H as [Hc Hs].
  destruct (Str.is_white_space c && Str.is_empty (Str.trimEnd s)); [reflexivity|].
  cbn. now rewrite Hc, IH.
Qed.

Lemma all_chars_trim p s : all_chars p s = true -> all_chars p (Str.trim s) = true.
Proof. intros H. now apply all_chars_trimEnd, all_chars_trimStart. Qed.

Lemma split_lines_nonempty s : Str.split_lines s <> [].
Proof.
  destruct s as [|c s]; [discriminate|].
  cbn. destruct (Ascii.eqb c Str.LF); [discriminate|].
  now destruct (Str.split_lines s).
Qed.

Lemma split_lines_one_line s :
  Forall (fun piece => one_line piece = true) (Str.split_lines s).
Proof.
  unfold one_line. induction s as [|c s IH]; [now repeat constructor|].
  cbn. destruct (Ascii.eqb c Str.LF) eqn:Hc; [now constructor|].
  destruct (Str.split_lines s) as [|piece pieces]; [repeat constructor; cbn; now rewrite Hc|].
  apply Forall_cons in IH as [Hp Hps].
  constructor; [cbn; now rewrite Hc, Hp|exact Hps].
Qed.

(** A string without line feed is one piece. *)
Lemma split_lines_of_one_line s : one_line s = true -> Str.split_lines s = [s].
Proof.
  unfold one_line. induction s as [|c s IH]; [reflexivity|].
  cbn. intros H. apply andb_true_iff in H as [Hc Hs].
  apply negb_true_iff in Hc. rewrite Hc. now rewrite (IH Hs).
Qed.

(** The pieces of two texts joined by a line feed are the pieces of the one
    followed by the pieces of the other. *)
Lemma split_lines_app a b :
  Str.split_lines (a +:+ Str.newline +:+ b) = Str.split_lines a ++ Str.split_lines b.
Proof.
  induction a as [|c a IH]; [reflexivity|].
  change (String c a +:+ Str.newline +:+ b)
    with (String c (a +:+ Str.newline +:+ b)).
  cbn [Str.split_lines]. rewrite IH.
  destruct (Ascii.eqb c Str.LF); [reflexivity|].
  pose proof (split_lines_nonempty a) as Hne.
  now destruct (Str.split_lines a).
Qed.

Lemma blank_split_lines s :
  forallb blank (Str.split_lines s) = blank s.
Proof.
  unfold blank. induction s as [|c s IH]; [reflexivity|].
  cbn [Str.split_lines]. destruct (Ascii.eqb_spec c Str.LF) as [->|Hc].
  - cbn -[Str.is_white_space]. now rewrite IH, LF_is_white_space.
  - pose proof (split_lines_nonempty s) as Hne.
    destruct (Str.split_lines s) as [|piece pieces]; [congruence|].
    cbn in *. now rewrite <- IH, andb_assoc.
Qed.

Lemma urlList_of_app a b :
  urlList_of (a +:+ Str.newline +:+ b) = urlList_of a ++ urlList_of b.
Proof.
  unfold urlList_of. now rewrite split_lines_app, List.map_app, List.filter_app.
Qed.

Lemma urlList_of_empty : urlList_of EmptyString = [].
Proof. reflexivity. Qed.

Lemma is_empty_true_iff s : Str.is_empty s = true <-> s = EmptyString.
Proof. destruct s; easy. Qed.

Lemma urlList_of_lines_nil (pieces : list string) :
  List.filter (fun u => negb (Str.is_empty u)) (List.map Str.trim pieces) = []
  <-> forallb blank pieces = true.
Proof.
  induction pieces as [|p pieces IH]; [easy|].
  cbn. destruct (Str.is_empty (Str.trim p)) eqn:He; cbn.
  - apply is_empty_true_iff, trim_empty_iff in He. now rewrite He.
  - split; [discriminate|]. intros H. apply andb_true_iff in H as [Hp _].
    apply trim_empty_iff in Hp. now rewrite Hp in He.
Qed.

(** The lines of one-line pieces joined by line feeds are the trimmed
    pieces that are not blank. *)
Lemma urlList_of_join (l : list string) :
  Forall (fun s => one_line s = true) l ->
  urlList_of (Str.join Str.newline l)
    = List.filter (fun u => negb (Str.is_empty u)) (List.map Str.trim l).
Proof.
  induction 1 as [|x l Hx Hl IH]; [reflexivity|].
  destruct l as [|y l].
  - cbn. unfold urlList_of. now rewrite (split_lines_of_one_line x Hx).
  - change (Str.join Str.newline (x :: y :: l))
      with (x +:+ Str.newline +:+ Str.join Str.newline (y :: l)).
    rewrite urlList_of_app, IH.
    unfold urlList_of at 1. rewrite (split_lines_of_one_line x Hx).
    cbn [List.map List.filter]. now destruct (negb (Str.is_empty (Str.trim x))).
Qed.

(** X1.  Every line [handleAnalyze] keeps of the text is not empty, is
    trimmed (trimming it again changes nothing) and holds no line feed. *)
Theorem urlList_of_clean (urls : string) : Forall clean_line (urlList_of urls).
Proof.
  apply List.Forall_forall. intros u Hu. unfold urlList_of in Hu.
  apply filter_In in Hu as [Hu Hne]. apply in_map_iff in Hu as (p & <- & Hp).
  split; [|split].
  - intros He. rewrite He in Hne. discriminate Hne.
  - apply trim_idempotent.
  - apply all_chars_trim.
    pose proof (split_lines_one_line urls) as Hall.
    rewrite List.Forall_forall in Hall. now apply Hall.
Qed.

Lemma analyze_disabled_idle (urls : string) :
  View.analyze_disabled false urls = true <-> urlList_of urls = [].
Proof.
  unfold View.analyze_disabled, urlList_of. cbn [orb truthy].
  rewrite negb_involutive, is_empty_true_iff, trim_empty_iff.
  now rewrite urlList_of_lines_nil, blank_split_lines.
Qed.

(** X2.  The Start Analysis button is disabled while a run is in progress,
    and otherwise exactly when the text has no line for [handleAnalyze] to
    keep: the early return of [handleAnalyze] on an empty URL list is the
    case in which the button cannot be pressed. *)
Theorem analyze_disabled_iff_no_url (urls : string) :
  View.analyze_disabled true urls = true /\
  (View.analyze_disabled false urls = true <-> urlList_of urls = []).
Proof.
  split; [reflexivity|apply analyze_disabled_idle].
Qed.

(** X3.  Writing lines that are not empty, trimmed and without line feed
    one per line and reading the text back gives the same lines in the same
    order. *)
Theorem urlList_of_join_clean (l : list string) :
  Forall clean_line l -> urlList_of (Str.join Str.newline l) = l.
Proof.
  intros Hl. rewrite urlList_of_join.
  - induction Hl as [|u l (Hne & Htrim & _) _ IH]; [reflexivity|].
    cbn. rewrite Htrim. destruct u; [congruence|]. cbn. now rewrite IH.
  - eapply Forall_impl; [exact Hl|]. now intros u (_ & _ & H).
Qed.

Lemma urlList_of_join_clean_witness :
  urlList_of (Str.join Str.newline [Demo.a; Demo.b]) = [Demo.a; Demo.b].
Proof.
  apply (urlList_of_join_clean [Demo.a; Demo.b]).
  repeat constructor; discriminate.
Defined.

(** ** Import, then analysis *)

Lemma urlList_of_onDrop (jsonData : list Row) (prev : string) :
  urlList_of (Intake.onDrop jsonData prev)
    = urlList_of prev ++ urlList_of (Intake.extractedUrls jsonData).
Proof.
  unfold Intake.onDrop. destruct prev as [|c prev]; [reflexivity|].
  cbn [Str.is_empty]. apply urlList_of_app.
Qed.

(** X4.  After an import the text area holds the lines it held before,
    followed by the lines of the imported text: nothing that was there is
    lost or reordered, whatever the workbook holds. *)
Theorem onDrop_keeps_lines (jsonData : list Row) (prev : string) :
  urlList_of (Intake.onDrop jsonData prev)
    = urlList_of prev ++ urlList_of (Intake.extractedUrls jsonData).
Proof. apply urlList_of_onDrop. Qed.

Lemma startsWith_http_not_blank s :
  Str.startsWith "http" s = true -> Str.is_empty (Str.trim s) = false.
Proof.
  intros H. destruct (Str.is_empty (Str.trim s)) eqn:He; [|reflexivity].
  apply is_empty_true_iff, trim_empty_iff in He.
  destruct s as [|c s]; [discriminate H|].
  unfold Str.startsWith in H.
  change (match ascii_dec "h" c with
          | left _ => String.prefix "ttp" s
          | right _ => false
          end = true) in H.
  destruct (ascii_dec "h" c) as [<-|]; [|discriminate H].
  unfold blank in He. cbn in He. discriminate He.
Qed.

(** X5.  When no kept cell holds a line feed, the URL list [handleAnalyze]
    reads after an import is the list read before followed by the kept
    cells, trimmed, one URL per cell and in row order. *)
Theorem onDrop_then_urlList (jsonData : list Row) (prev : string) :
  let cells := List.map Intake.text_of
                 (List.filter Intake.kept (List.map Intake.candidate jsonData)) in
  Forall (fun s => one_line s = true) cells ->
  urlList_of (Intake.onDrop jsonData prev)
    = urlList_of prev ++ List.map Str.trim cells.
Proof.
  intros cells Hcells. rewrite urlList_of_onDrop. f_equal.
  unfold Intake.extractedUrls. fold cells. rewrite (urlList_of_join cells Hcells).
  assert (Hhttp : Forall (fun s => Str.startsWith "http" s = true) cells).
  { subst cells. clear Hcells.
    induction (List.map Intake.candidate jsonData) as [|v l IH]; [constructor|].
    cbn [List.filter]. destruct (Intake.kept v) eqn:Hv; [|exact IH].
    apply kept_iff in Hv as (s & -> & Hs). now constructor. }
  clear Hcells. induction Hhttp as [|s l Hs _ IH]; [reflexivity|].
  cbn. rewrite (startsWith_http_not_blank s Hs). cbn. now rewrite IH.
Qed.

Lemma onDrop_then_urlList_witness :
  urlList_of
    (Intake.onDrop
       [[("URL", JStr "https://c.example  ")]; [("Name", JStr "no url")];
        [("URL", JNull); ("Link", JStr "http://d.example")]]
       Demo.a)
    = [Demo.a; "https://c.example"].
Proof.
  apply (onDrop_then_urlList
           [[("URL", JStr "https://c.example  ")]; [("Name", JStr "no url")];
            [("URL", JNull); ("Link", JStr "http://d.example")]] Demo.a).
  repeat constructor.
Defined.

(** ** The prompt and the stages of an analysis *)

Lemma length_app_string (a b : string) :
  String.length (a +:+ b) = String.length a + String.length b.
Proof.
  induction a as [|c a IH]; [reflexivity|].
  change (String c a +:+ b) with (String c (a +:+ b)). cbn. now rewrite IH.
Qed.

Lemma length_substring_to (n : nat) (s : string) :
  String.length (Str.substring_to n s) = Nat.min n (String.length s).
Proof.
  unfold Str.substring_to. revert s.
  induction n as [|n IH]; intros [|c s]; cbn; try reflexivity.
  now rewrite IH.
Qed.

Lemma substring_to_idempotent (n : nat) (s : string) :
  Str.substring_to n (Str.substring_to n s) = Str.substring_to n s.
Proof.
  unfold Str.substring_to. revert s.
  induction n as [|n IH]; intros [|c s]; cbn; try reflexivity.
  now rewrite IH.
Qed.

Lemma substring_to_short (n : nat) (s : string) :
  String.length s <= n -> Str.substring_to n s = s.
Proof.
  unfold Str.substring_to. revert s.
  induction n as [|n IH]; intros [|c s] H; cbn in *; try reflexivity; try lia.
  rewrite IH; [reflexivity|lia].
Qed.

Lemma template_length :
  String.length Prompt.head + String.length Prompt.tail = 818.
Proof. reflexivity. Qed.

(** X6.  Whenever the scoring service is called, its prompt is the fixed
    template around the first 30000 code units of the string the proxy
    returned as [html]: the prompt is 818 code units longer than what it
    embeds, never longer than 30818, holds the page whole when the page has
    at most 30000 code units, and is the same as for the page cut at 30000
    code units. *)
Theorem prompt_is_bounded
    (engine : Engine) (c : Collaborators) (url contents : string) :
  retrieved engine c url contents ->
  exists fr body html,
    fetch c url = Normal fr /\ json fr = Normal (JObj body) /\
    body !! "html" = Some (JStr html) /\
    contents = Prompt.head +:+ Str.substring_to Prompt.max_html html +:+ Prompt.tail /\
    String.length contents = 818 + Nat.min Prompt.max_html (String.length html) /\
    String.length contents <= 818 + Prompt.max_html /\
    (String.length html <= Prompt.max_html ->
       contents = Prompt.head +:+ html +:+ Prompt.tail) /\
    contents = Prompt.contents (Str.substring_to Prompt.max_html html).
Proof.
  intros (fr & body & html & Hf & _ & Hj & Hd & Hc).
  destruct html as [| | | |h| |]; try discriminate Hc.
  injection Hc as <-.
  destruct body as [| | | | | |o]; try discriminate Hd.
  injection Hd as Hd. unfold get in Hd.
  destruct (o !! "html") as [v|] eqn:Ho; [|discriminate Hd]. cbn in Hd. subst v.
  exists fr, o, h.
  assert (Hlen : String.length (Prompt.contents h)
                 = 818 + Nat.min Prompt.max_html (String.length h)).
  { unfold Prompt.contents. rewrite !length_app_string, length_substring_to.
    pose proof template_length. lia. }
  repeat split; try assumption; try reflexivity.
  - rewrite Hlen. lia.
  - intros Hshort. unfold Prompt.contents. now rewrite substring_to_short.
  - unfold Prompt.contents. now rewrite substring_to_idempotent.
Qed.

Lemma prompt_is_bounded_witness :
  exists fr body html,
    fetch (Demo.answering None) Demo.a = Normal fr /\
    json fr = Normal (JObj body) /\
    body !! "html" = Some (JStr html) /\
    Prompt.contents "<h1>Golf</h1>"
      = Prompt.head +:+ Str.substring_to Prompt.max_html html +:+ Prompt.tail /\
    String.length (Prompt.contents "<h1>Golf</h1>")
      = 818 + Nat.min Prompt.max_html (String.length html) /\
    String.length (Prompt.contents "<h1>Golf</h1>") <= 818 + Prompt.max_html /\
    (String.length html <= Prompt.max_html ->
       Prompt.contents "<h1>Golf</h1>" = Prompt.head +:+ html +:+ Prompt.tail) /\
    Prompt.contents "<h1>Golf</h1>"
      = Prompt.contents (Str.substring_to Prompt.max_html html).
Proof.
  apply (prompt_is_bounded Demo.engine (Demo.answering None) Demo.a).
  apply retrieved_page. reflexivity.
Defined.

(** X7.  When content retrieval fails, the scoring service plays no part:
    the analysis returns the error record of the retrieval failure whatever
    [generateContent] would have done. *)
Theorem retrieval_failure_skips_scoring
    (engine : Engine) (c c' : Collaborators) (url : string) (e : Error) :
  fetch c' url = fetch c url ->
  retrieval_fails engine c url e ->
  analyzeUrl engine c' url = Normal (error_record url e).
Proof.
  intros Hsame Hr. apply analyzeUrl_fails. left.
  destruct Hr as [e H | fr H Hok | fr e H Hok Hj | fr body e H Hok Hj Hd
                 | fr body html e H Hok Hj Hd Hc];
    rewrite <- Hsame in H.
  - now apply fetch_rejects.
  - now apply (response_not_ok _ _ _ fr).
  - now apply (body_rejects _ _ _ fr).
  - now apply (body_without_html _ _ _ fr body).
  - now apply (html_not_a_string _ _ _ fr body html).
Qed.

Lemma retrieval_failure_skips_scoring_witness :
  analyzeUrl Demo.engine
    {| fetch := fetch Demo.bad_gateway;
       generateContent := generateContent (Demo.answering (Some Demo.text_scores)) |}
    Demo.a
  = Normal (error_record Demo.a
              (mkError "Failed to fetch page content: Bad Gateway")).
Proof.
  apply (retrieval_failure_skips_scoring Demo.engine Demo.bad_gateway).
  - reflexivity.
  - now apply (response_not_ok _ _ _
                 {| ok := false; statusText := "Bad Gateway"; json := Normal JNull |}).
Defined.

(** X8.  When the scoring response parses to an object that keeps to the
    schema (the six declared properties and no other, five booleans and a
    string), the record returned conforms to the interface AnalysisResult:
    it carries the URL, the status success, the six values of the response
    and no error. *)
Theorem analyzeUrl_within_schema
    (engine : Engine) (c : Collaborators) (url : string)
    (resp : GenerateContentResponse) (o : Obj) :
  scored_with engine c url resp ->
  JSON_parse engine (text_or_empty_object (text resp)) = Normal (JObj o) ->
  within_schema o ->
  exists r,
    analyzeUrl engine c url = Normal r /\
    conforms r /\
    get Field.url r = JStr url /\
    get Field.status r = Status.success /\
    r !! Field.error = None /\
    Forall (fun k => r !! k = o !! k) Field.expected.
Proof.
  intros Hs Hp (Hdom & Hcrit & Hsum).
  exists (success_record url (JObj o)).
  split; [now apply analyzeUrl_scored with resp|].
  assert (Hout : forall k, k ∉ Field.expected -> o !! k = None).
  { intros k Hk. apply not_elem_of_dom. rewrite Hdom.
    now rewrite elem_of_list_to_set. }
  assert (Hin : forall k, k ∈ Field.expected ->
                  success_record url (JObj o) !! k = o !! k).
  { intros k Hk. rewrite lookup_success_record. cbn [own_props].
    destruct (o !! k) eqn:Hok; [reflexivity|].
    assert (k ∈ dom o) as Hd by (rewrite Hdom; now rewrite elem_of_list_to_set).
    apply elem_of_dom in Hd as [v Hv]. congruence. }
  assert (Hurl : get Field.url (success_record url (JObj o)) = JStr url).
  { unfold get. rewrite lookup_success_record. cbn [own_props].
    rewrite Hout; [reflexivity|]. now apply (bool_decide_unpack _). }
  assert (Hstatus : get Field.status (success_record url (JObj o)) = Status.success).
  { unfold get. rewrite lookup_success_record. cbn [own_props].
    rewrite Hout; [reflexivity|]. now apply (bool_decide_unpack _). }
  assert (Herr : success_record url (JObj o) !! Field.error = None).
  { rewrite lookup_success_record. cbn [own_props].
    rewrite Hout; [reflexivity|]. now apply (bool_decide_unpack _). }
  assert (Hget : forall k, k ∈ Field.expected ->
                   get k (success_record url (JObj o)) = get k o).
  { intros k Hk. unfold get. now rewrite Hin. }
  split; [|split; [exact Hurl|split; [exact Hstatus|split; [exact Herr|]]]].
  - split.
    + now rewrite Hurl.
    + right. left. exact Hstatus.
    + apply Forall_forall. intros k Hk. rewrite Hget.
      * rewrite Forall_forall in Hcrit. now apply Hcrit.
      * unfold Field.expected. apply elem_of_app. now left.
    + rewrite Hget; [exact Hsum|]. now apply (bool_decide_unpack _).
    + now left.
  - apply Forall_forall. exact Hin.
Qed.

Lemma scores_within_schema : within_schema Demo.scores.
Proof.
  split; [|split].
  - apply (bool_decide_unpack _). vm_compute. exact I.
  - repeat constructor; now eexists.
  - reflexivity.
Qed.

Lemma analyzeUrl_within_schema_witness :
  exists r,
    analyzeUrl Demo.engine (Demo.answering (Some Demo.text_scores)) Demo.a
      = Normal r /\
    conforms r /\
    get Field.url r = JStr Demo.a /\
    get Field.status r = Status.success /\
    r !! Field.error = None /\
    Forall (fun k => r !! k = Demo.scores !! k) Field.expected.
Proof.
  apply (analyzeUrl_within_schema Demo.engine
           (Demo.answering (Some Demo.text_scores)) Demo.a
           {| text := Some Demo.text_scores |} Demo.scores
           (scored_with_answering _ _)).
  - reflexivity.
  - exact scores_within_schema.
Defined.

(** ** The run as a whole *)

Lemma steps_from_zip engine world us : forall i,
  steps_from engine world i us
    = zip us (List.map snd (steps_from engine world i us)).
Proof.
  induction us as [|u us IH]; intros i; [reflexivity|].
  cbn. f_equal. apply IH.
Qed.

Lemma url_is_faithful (g : string -> Obj) (u u1 : string) :
  get Field.url (g u) = JStr u -> url_is u1 (g u) = String.eqb u u1.
Proof. intros H. unfold url_is. now rewrite H. Qed.

(** Under records that carry their own URL, the state after each update
    shows, for every URL, the latest record made for it so far. *)
Lemma states_with_latest steps : forall (g : string -> Obj) (us0 : list string) k,
  own_url steps ->
  (forall u, get Field.url (g u) = JStr u) ->
  k < length steps ->
  states_with steps (List.map g us0) !! k
    = Some (List.map (fun u => default (g u) (latest (take (S k) steps) u)) us0).
Proof.
  induction steps as [|[u1 r1] rest IH]; intros g us0 k Hown Hg Hk;
    [cbn in Hk; lia|].
  apply Forall_cons in Hown as [Hr1 Hown]. cbn in Hr1.
  set (g' := fun u => if String.eqb u u1 then r1 else g u).
  assert (Hnext : replace_by_url u1 r1 (List.map g us0) = List.map g' us0).
  { unfold replace_by_url. rewrite List.map_map. apply List.map_ext.
    intros u. now rewrite (url_is_faithful g u u1 (Hg u)). }
  assert (Hg' : forall u, get Field.url (g' u) = JStr u).
  { intros u. unfold g'. destruct (String.eqb_spec u u1) as [->|_];
      [exact Hr1|apply Hg]. }
  cbn [states_with]. rewrite Hnext.
  destruct k as [|k].
  - cbn. f_equal. apply List.map_ext. intros u. unfold g'.
    rewrite (String.eqb_sym u u1). now destruct (String.eqb u1 u).
  - cbn [lookup list_lookup]. change (?l !! k) with (l !! k).
    rewrite (IH g' us0 k Hown Hg') by (cbn in Hk; lia).
    f_equal. apply List.map_ext. intros u. cbn [take latest].
    destruct (latest (take (S k) rest) u); [reflexivity|].
    unfold g'. rewrite (String.eqb_sym u u1). now destruct (String.eqb u1 u).
Qed.

Lemma latest_In steps u r : latest steps u = Some r -> In (u, r) steps.
Proof.
  induction steps as [|[u1 r1] rest IH]; [discriminate|].
  cbn. destruct (latest rest u) as [r'|].
  - intros H. right. apply IH. exact H.
  - destruct (String.eqb_spec u1 u) as [->|_]; [|discriminate].
    intros H. injection H as ->. now left.
Qed.

Lemma latest_is_Some steps u :
  In u (List.map fst steps) -> is_Some (latest steps u).
Proof.
  induction steps as [|[u1 r1] rest IH]; [intros []|].
  cbn. intros [->|Hin].
  - destruct (latest rest u); [eauto|]. rewrite String.eqb_refl. eauto.
  - destruct (IH Hin) as [r' Hr']. rewrite Hr'. eauto.
Qed.

Lemma list_last_lookup {A} (l : list A) (d : A) :
  l <> [] -> l !! (length l - 1) = Some (List.last l d).
Proof.
  induction l as [|a l IH]; [congruence|]. intros _.
  destruct l as [|b l]; [reflexivity|].
  rewrite last_cons_cons. cbn [length]. rewrite <- IH by discriminate.
  cbn [length]. replace (S (S (length l)) - 1) with (S (S (length l) - 1)) by lia.
  reflexivity.
Qed.

Lemma final_state_lookup engine world urls :
  urlList_of urls <> [] ->
  published (handleAnalyze engine world urls) !! length (urlList_of urls)
    = Some (final_state (handleAnalyze engine world urls)).
Proof.
  intros Hne. unfold final_state.
  rewrite <- (list_last_lookup (published (handleAnalyze engine world urls)) []).
  - rewrite (run_published_length engine world urls Hne). f_equal. lia.
  - rewrite (run_published engine world urls Hne). discriminate.
Qed.

(** X9.  A run leaves [isAnalyzing] untouched when the text has no line to
    keep, and otherwise sets it and leaves it false: since no analysis
    throws, the call that resets it is always reached. *)
Theorem handleAnalyze_resets_isAnalyzing
    (engine : Engine) (world : World) (urls : string) :
  isAnalyzing (handleAnalyze engine world urls)
    = if decide (urlList_of urls = []) then None else Some false.
Proof.
  destruct (decide (urlList_of urls = [])) as [He|Hne].
  - now rewrite handleAnalyze_blank.
  - now rewrite handleAnalyze_runs.
Qed.

(** X10.  What a run has published by the time the [k]-th analysis starts
    does not depend on that analysis nor on any later one: two worlds that
    behave alike during the first [k] analyses give the same first [k+1]
    values of [results]. *)
Theorem handleAnalyze_prefix
    (engine : Engine) (world world' : World) (urls : string) (k : nat) :
  (forall j, j < k -> world j = world' j) ->
  take (S k) (published (handleAnalyze engine world urls))
    = take (S k) (published (handleAnalyze engine world' urls)).
Proof.
  intros Hsame.
  destruct (decide (urlList_of urls = [])) as [He|Hne].
  - now rewrite !handleAnalyze_blank.
  - rewrite !run_published by exact Hne. cbn [take]. f_equal.
    generalize (List.map pending_record (urlList_of urls)).
    assert (Hgen : forall us i prev,
              (forall j, j < k -> world (i + j) = world' (i + j)) ->
              take k (states_with (steps_from engine world i us) prev)
                = take k (states_with (steps_from engine world' i us) prev)).
    { clear Hsame. revert k.
      induction k as [|k IH]; intros us i prev Hw; [reflexivity|].
      destruct us as [|u us]; [reflexivity|].
      cbn [steps_from states_with take].
      assert (H0 : world i = world' i)
        by (rewrite <- (Nat.add_0_r i); apply Hw; lia).
      rewrite <- H0. f_equal. apply IH.
      intros j Hj. rewrite Nat.add_succ_comm. apply Hw. lia. }
    intros prev. apply Hgen. intros j Hj. now apply Hsame.
Qed.

Lemma handleAnalyze_prefix_witness :
  take 2 (published (handleAnalyze Demo.engine Demo.second_fails
                       (Demo.two_lines Demo.a Demo.b)))
    = take 2 (published (handleAnalyze Demo.engine
                           (Demo.always (Demo.answering (Some Demo.text_scores)))
                           (Demo.two_lines Demo.a Demo.b))).
Proof.
  apply (handleAnalyze_prefix Demo.engine Demo.second_fails
           (Demo.always (Demo.answering (Some Demo.text_scores)))
           (Demo.two_lines Demo.a Demo.b) 1).
  intros j Hj. assert (j = 0) as -> by lia. reflexivity.
Defined.

Lemma published_shows_latest engine world urls k :
  urlList_of urls <> [] ->
  (forall i u, urlList_of urls !! i = Some u ->
     response_lacks engine (world i) u Field.url) ->
  k <= length (urlList_of urls) ->
  published (handleAnalyze engine world urls) !! k
    = Some (List.map
              (shown_after
                 (take k (zip (urlList_of urls)
                            (newResults (handleAnalyze engine world urls)))))
              (urlList_of urls)).
Proof.
  intros Hne Hurl Hk.
  rewrite run_newResults, <- steps_from_zip, (run_published engine world urls Hne).
  destruct k as [|k]; [reflexivity|].
  cbn [lookup list_lookup]. change (?l !! k) with (l !! k).
  apply (states_with_latest _ pending_record).
  - now apply steps_from_own_url.
  - apply get_pending_record_url.
  - rewrite steps_from_length. lia.
Qed.

(** X11.  Provided no scoring response of the run carries a property named
    url, every state of a run shows, at each position, the record of the
    latest analysis completed so far for the URL of that position, and the
    pending record while there is none; duplicate lines included, which
    always show the same record. *)
Theorem handleAnalyze_shows_latest
    (engine : Engine) (world : World) (urls : string) :
  let us := urlList_of urls in
  let run := handleAnalyze engine world urls in
  us <> [] ->
  (forall i u, us !! i = Some u ->
     response_lacks engine (world i) u Field.url) ->
  forall k, k <= length us ->
    published run !! k
      = Some (List.map (shown_after (take k (zip us (newResults run)))) us).
Proof.
  intros us run Hne Hurl k Hk. now apply published_shows_latest.
Qed.

Lemma handleAnalyze_shows_latest_witness :
  published (handleAnalyze Demo.engine Demo.fail_then_succeed
               (Demo.two_lines Demo.a Demo.a)) !! 1
    = Some (List.map
              (shown_after
                 (take 1 (zip [Demo.a; Demo.a]
                            (newResults
                               (handleAnalyze Demo.engine Demo.fail_then_succeed
                                  (Demo.two_lines Demo.a Demo.a))))))
              [Demo.a; Demo.a]).
Proof.
  apply (handleAnalyze_shows_latest Demo.engine Demo.fail_then_succeed
           (Demo.two_lines Demo.a Demo.a)).
  - vm_compute. discriminate.
  - intros [|[|i]] u Hi resp d (contents & (fr & _ & _ & Hf & _) & Hg) Hd;
      [discriminate Hf| |discriminate Hi].
    injection Hg as <-. injection Hd as <-. reflexivity.
  - vm_compute. lia.
Defined.

(** X12.  When the URL list has no duplicates and no scoring response
    carries a property named url, a run leaves in [results] exactly the
    array [newResults] it has built: the records of the analyses, in input
    order. *)
Theorem handleAnalyze_final_state
    (engine : Engine) (world : World) (urls : string) :
  let us := urlList_of urls in
  let run := handleAnalyze engine world urls in
  NoDup us ->
  (forall i u, us !! i = Some u ->
     response_lacks engine (world i) u Field.url) ->
  final_state run = newResults run.
Proof.
  intros us run Hnd Hurl. subst us run.
  destruct (decide (urlList_of urls = [])) as [He|Hne].
  - now rewrite handleAnalyze_blank.
  - pose proof (final_state_lookup engine world urls Hne) as Hfin.
    rewrite (run_published_nodup engine world urls _ Hne Hnd Hurl) in Hfin by lia.
    injection Hfin as <-.
    rewrite drop_all, app_nil_r. apply take_ge.
    now rewrite run_newResults_length.
Qed.

Lemma handleAnalyze_final_state_witness :
  final_state (handleAnalyze Demo.engine Demo.second_fails
                 (Demo.two_lines Demo.a Demo.b))
    = newResults (handleAnalyze Demo.engine Demo.second_fails
                    (Demo.two_lines Demo.a Demo.b)).
Proof.
  apply (handleAnalyze_final_state Demo.engine Demo.second_fails
           (Demo.two_lines Demo.a Demo.b) two_lines_NoDup).
  intros i u _. now apply second_fails_lacks.
Defined.

(** X13.  Once [results] is empty while a run is in progress (the Clear
    Results button), it stays empty: the remaining iterations of the loop
    still analyse every remaining URL and push its record to [newResults],
    and each of their updates publishes the empty list. *)
Theorem analyze_from_cleared
    (engine : Engine) (world : World) (i : nat) (rest : list string) :
  exists states pushed,
    analyze_from engine world i rest [] = (states, pushed, None) /\
    length states = length rest /\
    Forall (fun s => s = []) states /\
    length pushed = length rest /\
    forall j u, rest !! j = Some u ->
      exists r, analyzeUrl engine (world (i + j)) u = Normal r /\
                pushed !! j = Some r.
Proof.
  exists (states_with (steps_from engine world i rest) []),
         (List.map snd (steps_from engine world i rest)).
  split; [apply analyze_from_runs|].
  split; [now rewrite states_with_length, steps_from_length|].
  split.
  - eapply Forall_impl; [apply states_with_lengths|].
    intros s Hs. cbn in Hs. now destruct s.
  - split; [now rewrite length_map, steps_from_length|].
    intros j u Hj. exists (result_of engine (world (i + j)) u).
    split; [apply analyzeUrl_result|].
    change (List.map snd ?l) with (snd <$> l).
    now rewrite list_lookup_fmap, (steps_from_lookup engine world rest i j u Hj).
Qed.

(** ** The badges and the cards *)

Lemma status_is_spec (v : string) (r : Obj) :
  View.status_is v r = true <-> get Field.status r = JStr v.
Proof.
  unfold View.status_is.
  destruct (get Field.status r) as [| | | |s| |]; try (split; congruence).
  rewrite String.eqb_eq. split; congruence.
Qed.

Lemma counts_of_terminal (l : list Obj) :
  Forall (fun r => terminal (get Field.status r)) l ->
  View.successCount l + View.errorCount l = length l.
Proof.
  unfold View.successCount, View.errorCount.
  induction 1 as [|r l Hr _ IH]; [reflexivity|].
  assert (Hcase : (View.status_is "success" r = true /\
                   View.status_is "error" r = false) \/
                  (View.status_is "success" r = false /\
                   View.status_is "error" r = true)).
  { unfold View.status_is. destruct Hr as [-> | ->]; [left|right]; now split. }
  cbn [List.filter]. destruct Hcase as [[-> ->] | [-> ->]]; cbn [length]; lia.
Qed.

Lemma counts_of_pending (us : list string) :
  View.successCount (List.map pending_record us) = 0 /\
  View.errorCount (List.map pending_record us) = 0.
Proof.
  unfold View.successCount, View.errorCount.
  induction us as [|u us [IHs IHe]]; [now split|]. now split.
Qed.

(** X14.  At the seeding both badges show 0.  At the end of a run in which
    no scoring response carries a property named url or status, no record
    is pending: the Success and the Errors badge add up to the number of
    results, duplicate lines included. *)
Theorem badges_add_up (engine : Engine) (world : World) (urls : string) :
  let us := urlList_of urls in
  let run := handleAnalyze engine world urls in
  (forall i u, us !! i = Some u ->
     response_lacks engine (world i) u Field.url) ->
  (forall i u, us !! i = Some u ->
     response_lacks engine (world i) u Field.status) ->
  View.successCount (List.map pending_record us) = 0 /\
  View.errorCount (List.map pending_record us) = 0 /\
  View.successCount (final_state run) + View.errorCount (final_state run)
    = length us.
Proof.
  intros us run Hurl Hstatus. subst us run.
  split; [apply counts_of_pending|]. split; [apply counts_of_pending|].
  - destruct (decide (urlList_of urls = [])) as [He|Hne].
    { rewrite handleAnalyze_blank by exact He. now rewrite He. }
    pose proof (final_state_lookup engine world urls Hne) as Hfin.
    rewrite (published_shows_latest engine world urls _ Hne Hurl) in Hfin by lia.
    injection Hfin as <-.
    rewrite run_newResults, <- steps_from_zip.
    rewrite take_ge by (rewrite steps_from_length; lia).
    rewrite counts_of_terminal; [apply length_map|].
    apply List.Forall_forall. intros r Hr.
    apply in_map_iff in Hr as (u & <- & Hu).
    destruct (latest_is_Some (steps_from engine world 0 (urlList_of urls)) u)
      as [r Hr]; [now rewrite steps_from_urls|].
    unfold shown_after. rewrite Hr. cbn.
    apply latest_In, list_elem_of_In, list_elem_of_lookup in Hr as [j Hj].
    assert (Hju : urlList_of urls !! j = Some u).
    { rewrite <- (steps_from_urls engine world (urlList_of urls) 0).
      change (List.map fst ?l) with (fst <$> l).
      now rewrite list_lookup_fmap, Hj. }
    rewrite (steps_from_lookup engine world _ 0 j u Hju) in Hj.
    injection Hj as <-. apply result_of_status. now apply Hstatus.
Qed.

Lemma badges_add_up_witness :
  View.successCount [pending_record Demo.a; pending_record Demo.b] = 0 /\
  View.errorCount [pending_record Demo.a; pending_record Demo.b] = 0 /\
  View.successCount
    (final_state (handleAnalyze Demo.engine Demo.second_fails
                    (Demo.two_lines Demo.a Demo.b)))
  + View.errorCount
      (final_state (handleAnalyze Demo.engine Demo.second_fails
                      (Demo.two_lines Demo.a Demo.b)))
  = 2.
Proof.
  apply (badges_add_up Demo.engine Demo.second_fails
           (Demo.two_lines Demo.a Demo.b)).
  - intros i u _. now apply second_fails_lacks.
  - intros i u _. now apply second_fails_lacks.
Defined.

(** X15.  Provided no scoring response of the run carries a property named
    url, an export made at any moment of a run, mid-run included, has one
    row per input line with the URL column holding the input URLs in input
    order; and the Export and Clear buttons are there from the seeding on. *)
Theorem export_follows_input (engine : Engine) (world : World) (urls : string) :
  let us := urlList_of urls in
  let run := handleAnalyze engine world urls in
  (forall i u, us !! i = Some u ->
     response_lacks engine (world i) u Field.url) ->
  Forall (fun s =>
            View.has_results s = true /\
            length (Sheet.exportToExcel s) = length us /\
            List.map col_URL (Sheet.exportToExcel s) = List.map JStr us)
         (published run).
Proof.
  intros us run Hurl. subst us run.
  pose proof (run_published_lengths engine world urls) as Hlen.
  pose proof (run_published_urls engine world urls Hurl) as Hurls.
  rewrite List.Forall_forall in Hlen, Hurls. apply List.Forall_forall.
  intros s Hs. specialize (Hlen s Hs). specialize (Hurls s Hs).
  assert (Hne : urlList_of urls <> []).
  { intros He. rewrite handleAnalyze_blank in Hs by exact He. destruct Hs. }
  split; [|split].
  - unfold View.has_results. rewrite Hlen.
    destruct (urlList_of urls); [congruence|reflexivity].
  - unfold Sheet.exportToExcel. now rewrite length_map.
  - unfold Sheet.exportToExcel. rewrite List.map_map. exact Hurls.
Qed.

Lemma export_follows_input_witness :
  Forall (fun s =>
            View.has_results s = true /\
            length (Sheet.exportToExcel s) = 2 /\
            List.map col_URL (Sheet.exportToExcel s) = [JStr Demo.a; JStr Demo.b])
         (published (handleAnalyze Demo.engine Demo.second_fails
                       (Demo.two_lines Demo.a Demo.b))).
Proof.
  apply (export_follows_input Demo.engine Demo.second_fails
           (Demo.two_lines Demo.a Demo.b)).
  intros i u _. now apply second_fails_lacks.
Defined.

(** X16.  A card shows the spinner, the checks with the summary, or the
    error message according to the status, never two of them: the spinner
    and the amber dot for pending, the checks, the summary and the emerald
    dot for success, the message and the rose dot for error.  A record
    whose status is none of the three shows none of them, under the rose
    dot of an error. *)
Theorem card_parts (r : Obj) :
  (get Field.status r = Status.pending ->
     View.shows_spinner r = true /\ View.shows_checks r = false /\
     View.shows_summary r = false /\ View.shows_error r = false /\
     View.dot_class r = "bg-amber-400 animate-pulse") /\
  (get Field.status r = Status.success ->
     View.shows_spinner r = false /\ View.shows_checks r = true /\
     View.shows_summary r = true /\ View.shows_error r = false /\
     View.dot_class r = "bg-emerald-500") /\
  (get Field.status r = Status.error ->
     View.shows_spinner r = false /\ View.shows_checks r = false /\
     View.shows_summary r = false /\ View.shows_error r = true /\
     View.dot_class r = "bg-rose-500") /\
  (get Field.status r <> Status.pending ->
   get Field.status r <> Status.success ->
   get Field.status r <> Status.error ->
     View.shows_spinner r = false /\ View.shows_checks r = false /\
     View.shows_summary r = false /\ View.shows_error r = false /\
     View.dot_class r = "bg-rose-500").
Proof.
  unfold View.shows_spinner, View.shows_checks, View.shows_summary,
    View.shows_error, View.dot_class.
  split; [|split; [|split]].
  - intros H. unfold View.status_is. rewrite H. now repeat split.
  - intros H. unfold View.status_is. rewrite H. now repeat split.
  - intros H. unfold View.status_is. rewrite H. now repeat split.
  - intros Hp Hs He.
    assert (Fp : View.status_is "pending" r = false).
    { destruct (View.status_is "pending" r) eqn:E; [|reflexivity].
      apply status_is_spec in E. contradiction. }
    assert (Fs : View.status_is "success" r = false).
    { destruct (View.status_is "success" r) eqn:E; [|reflexivity].
      apply status_is_spec in E. contradiction. }
    assert (Fe : View.status_is "error" r = false).
    { destruct (View.status_is "error" r) eqn:E; [|reflexivity].
      apply status_is_spec in E. contradiction. }
    rewrite Fp, Fs, Fe. now repeat split.
Qed.

(** X17.  The card and the export read the same five criteria, the first
    one with opposite senses: the check ToC Present passes exactly when the
    column Missing ToC says No, and each of the other four checks passes
    exactly when its column says Yes. *)
Theorem card_agrees_with_export (r : Obj) :
  let row := Sheet.row_of r in
  let pass (b : bool) : string := if b then "Pass" else "Fail" in
  List.map fst (View.checks r)
    = ["ToC Present"; "Deep Links"; "Natural Headings"; "Info Density";
       "Semantic HTML"] /\
  List.map (fun check => View.verdict (snd check)) (View.checks r)
    = [ pass (String.eqb (col_Missing_ToC row) "No");
        pass (String.eqb (col_Deep_Linkable_Anchors row) "Yes");
        pass (String.eqb (col_Natural_Language_Headings row) "Yes");
        pass (String.eqb (col_High_Info_Density row) "Yes");
        pass (String.eqb (col_Semantic_HTML row) "Yes") ].
Proof.
  split; [reflexivity|]. cbn. unfold View.verdict, Sheet.yes_no. cbn [truthy].
  destruct (truthy (get Field.missingToC r)),
           (truthy (get Field.deepLinkableAnchors r)),
           (truthy (get Field.naturalLanguageHeadings r)),
           (truthy (get Field.highInformationDensity r)),
           (truthy (get Field.semanticHtml r)); reflexivity.
Qed.

(** X18.  A failed analysis, retrieval or scoring, is exported as a row
    with the URL, the status error, No in the five criteria columns, the
    empty summary and the message of the failure in the Error column; its
    card shows that message and nothing else. *)
Theorem failure_is_exported
    (engine : Engine) (c : Collaborators) (url : string) (e : Error) :
  fails engine c url e ->
  exists r,
    analyzeUrl engine c url = Normal r /\
    Sheet.row_of r
      = {| col_URL := JStr url;
           col_Status := Status.error;
           col_Missing_ToC := "No";
           col_Deep_Linkable_Anchors := "No";
           col_Natural_Language_Headings := "No";
           col_High_Info_Density := "No";
           col_Semantic_HTML := "No";
           col_Summary := JStr EmptyString;
           col_Error := JStr (message e) |} /\
    View.shows_error r = true /\ View.shows_checks r = false /\
    View.shows_spinner r = false.
Proof.
  intros F. exists (error_record url e).
  split; [now apply analyzeUrl_fails|]. split; [|now repeat split].
  unfold Sheet.row_of. f_equal.
  change (get Field.error (error_record url e)) with (JStr (message e)).
  unfold js_or. cbn. now destruct (message e).
Qed.

Lemma failure_is_exported_witness :
  exists r,
    analyzeUrl Demo.engine Demo.scoring_down Demo.b = Normal r /\
    Sheet.row_of r
      = {| col_URL := JStr Demo.b;
           col_Status := Status.error;
           col_Missing_ToC := "No";
           col_Deep_Linkable_Anchors := "No";
           col_Natural_Language_Headings := "No";
           col_High_Info_Density := "No";
           col_Semantic_HTML := "No";
           col_Summary := JStr EmptyString;
           col_Error := JStr "Service unavailable" |} /\
    View.shows_error r = true /\ View.shows_checks r = false /\
    View.shows_spinner r = false.
Proof.
  apply (failure_is_exported Demo.engine Demo.scoring_down Demo.b
           (mkError "Service unavailable")).
  apply scoring_down_fails.
Defined.

(** X19.  When the scoring call resolves with no text, or with the empty
    text, the record is shown and exported as a success without findings:
    the export has the status success, No in the five criteria columns, no
    summary and the empty Error cell, and on the card the check ToC Present
    passes, since the missing [missingToC] is read as false, while the other
    four fail. *)
Theorem empty_response_is_shown_as_success
    (engine : Engine) (c : Collaborators) (url : string)
    (resp : GenerateContentResponse) :
  scored_with engine c url resp ->
  text resp = None \/ text resp = Some EmptyString ->
  JSON_parse engine "{}" = Normal (JObj ∅) ->
  exists r,
    analyzeUrl engine c url = Normal r /\
    Sheet.row_of r
      = {| col_URL := JStr url;
           col_Status := Status.success;
           col_Missing_ToC := "No";
           col_Deep_Linkable_Anchors := "No";
           col_Natural_Language_Headings := "No";
           col_High_Info_Density := "No";
           col_Semantic_HTML := "No";
           col_Summary := JUndefined;
           col_Error := JStr EmptyString |} /\
    View.shows_checks r = true /\
    List.map (fun check => View.verdict (snd check)) (View.checks r)
      = ["Pass"; "Fail"; "Fail"; "Fail"; "Fail"].
Proof.
  intros Hs Ht Hp.
  exists {[ Field.url := JStr url; Field.status := Status.success ]}.
  split; [|now repeat split].
  assert (Hd : text_or_empty_object (text resp) = "{}")
    by (destruct Ht as [-> | ->]; reflexivity).
  rewrite (analyzeUrl_scored engine c url resp (JObj ∅) Hs)
    by (now rewrite Hd).
  unfold success_record, spread_onto. cbn [own_props].
  now rewrite (left_id_L ∅ _).
Qed.

Lemma empty_response_is_shown_as_success_witness :
  exists r,
    analyzeUrl Demo.engine (Demo.answering None) Demo.a = Normal r /\
    Sheet.row_of r
      = {| col_URL := JStr Demo.a;
           col_Status := Status.success;
           col_Missing_ToC := "No";
           col_Deep_Linkable_Anchors := "No";
           col_Natural_Language_Headings := "No";
           col_High_Info_Density := "No";
           col_Semantic_HTML := "No";
           col_Summary := JUndefined;
           col_Error := JStr EmptyString |} /\
    View.shows_checks r = true /\
    List.map (fun check => View.verdict (snd check)) (View.checks r)
      = ["Pass"; "Fail"; "Fail"; "Fail"; "Fail"].
Proof.
  apply (empty_response_is_shown_as_success Demo.engine (Demo.answering None)
           Demo.a {| text := None |} (scored_with_answering None Demo.a)).
  - now left.
  - reflexivity.
Defined.

(** X20.  An import from which no cell is kept (an empty sheet, rows of
    numbers, text that does not start with http) leaves an empty text empty
    and adds a line feed to a text that is not, and in both cases changes
    neither the URL list [handleAnalyze] reads nor whether the Start
    Analysis button is disabled. *)
Theorem onDrop_nothing_kept (jsonData : list Row) (prev : string) :
  List.filter Intake.kept (List.map Intake.candidate jsonData) = [] ->
  Intake.onDrop jsonData prev
    = (if Str.is_empty prev then EmptyString else prev +:+ Str.newline) /\
  urlList_of (Intake.onDrop jsonData prev) = urlList_of prev /\
  forall isAnalyzing,
    View.analyze_disabled isAnalyzing (Intake.onDrop jsonData prev)
      = View.analyze_disabled isAnalyzing prev.
Proof.
  intros Hnone.
  assert (Hext : Intake.extractedUrls jsonData = EmptyString)
    by (unfold Intake.extractedUrls; now rewrite Hnone).
  assert (Hlist : urlList_of (Intake.onDrop jsonData prev) = urlList_of prev)
    by (rewrite urlList_of_onDrop, Hext; apply app_nil_r).
  split; [|split; [exact Hlist|]].
  - unfold Intake.onDrop. rewrite Hext. now destruct prev.
  - intros [|]; [reflexivity|].
    destruct (View.analyze_disabled false prev) eqn:Hp.
    + apply analyze_disabled_idle. rewrite Hlist.
      now apply analyze_disabled_idle.
    + destruct (View.analyze_disabled false (Intake.onDrop jsonData prev)) eqn:Hd;
        [|reflexivity].
      apply analyze_disabled_idle in Hd. rewrite Hlist in Hd.
      apply analyze_disabled_idle in Hd. congruence.
Qed.

Lemma onDrop_nothing_kept_witness :
  Intake.onDrop [[("Name", JStr "Golf"); ("URL", JNull)]; []] Demo.a
    = Demo.a +:+ Str.newline /\
  urlList_of (Intake.onDrop [[("Name", JStr "Golf"); ("URL", JNull)]; []] Demo.a)
    = urlList_of Demo.a /\
  forall isAnalyzing,
    View.analyze_disabled isAnalyzing
      (Intake.onDrop [[("Name", JStr "Golf"); ("URL", JNull)]; []] Demo.a)
      = View.analyze_disabled isAnalyzing Demo.a.
Proof.
  apply (onDrop_nothing_kept [[("Name", JStr "Golf"); ("URL", JNull)]; []] Demo.a).
  reflexivity.
Defined.
